(** * QuickDeck data system: the two acquisition sketches

    A shallow embedding of [arduino/strain_arduino/strain_arduino.ino] and of
    the motion sketch ([arduino/motion_arduino/motion_arduino.ino]), with the
    properties of the acquisition core stated over it.

    Conventions.
    - Both sketches target the Arduino Uno (ATmega328P, avr-gcc): [int] is
      16 bits wide, [long] and [unsigned long] are 32 bits wide.  Integers
      are modelled as [Z] with the wrap-around written out.
    - [float]/[double] values: the two quantities whose rounding is
      observable, the factor parsed by [toFloat] and the offset counter of
      the motion sketch, are binary32 numbers ([Float32]).  The strain
      readings are whole counts, exact in a [float].  The angles of the
      motion sketch, which need [atan2], [sqrt] and [PI], are idealised to
      real numbers ([R]); infinities and NaN are outside the model.
    - The hardware is an explicit input of every step: the clock, what each
      amplifier or inertial module delivers, the line waiting on the serial
      port.  Serial output is the list of frames (lines) a step prints.
    - The Arduino core ([String]) and the two device libraries named in
      INSTALL.md (HX711 by Bogdan Necula, MPU6050 by Electronic Cats) are not
      part of the repository; the few functions the sketches call are
      modelled after the libraries' published sources. *)

From Stdlib Require Import ZArith QArith List String Ascii Bool Lia.
From Stdlib Require Import Reals Qreals Lra.
Import ListNotations.

Local Open Scope Z_scope.

(** ** Machine integers of the ATmega328P *)

Module Avr.

Definition wrap_u32 (z : Z) : Z := z mod 2 ^ 32.
Definition wrap_s16 (z : Z) : Z := (z + 2 ^ 15) mod 2 ^ 16 - 2 ^ 15.
Definition wrap_s32 (z : Z) : Z := (z + 2 ^ 31) mod 2 ^ 32 - 2 ^ 31.

(** [millis()]: milliseconds since boot, in an [unsigned long]. *)
Definition millis (clock : Z) : Z := wrap_u32 clock.

(** The test both sketches use:
    [currentTime - lastSampleTime >= SAMPLE_INTERVAL], an [unsigned long]
    subtraction compared with a [long] constant converted to
    [unsigned long]. *)
Definition due (interval currentTime lastSampleTime : Z) : bool :=
  wrap_u32 interval <=? wrap_u32 (currentTime - lastSampleTime).

(** Clock values read by successive passes of [loop()]: they start at
    [from] or later and never go back. *)
Fixpoint ascending (from : Z) (ts : list Z) : Prop :=
  match ts with
  | [] => True
  | t :: ts' => from <= t /\ ascending t ts'
  end.

(** Successive instants, the first counted from [from], that are at least
    [d] apart. *)
Fixpoint spaced (d from : Z) (ts : list Z) : Prop :=
  match ts with
  | [] => True
  | t :: ts' => d <= t - from /\ spaced d t ts'
  end.

End Avr.

(** ** Single-precision numbers

    [float] and [double] are both IEEE 754 binary32 on this target.  Where a
    value decides a branch or is stored from text, its rounding is modelled:
    a binary32 number is the rational it denotes, and [round] sends a
    rational to the nearest binary32 number, ties to even, subnormal numbers
    included.  Results of magnitude 2^128 or more (infinity on the target)
    are outside the model. *)

Module Float32.

(** The exponent of a positive rational: the [e] with
    [2^e <= n/d < 2^(e+1)]. *)
Definition exponent (n d : positive) : Z :=
  let e0 := Z.log2 (Zpos n) - Z.log2 (Zpos d) in
  let reaches :=
    if 0 <=? e0 then Zpos d * 2 ^ e0 <=? Zpos n
    else Zpos d <=? Zpos n * 2 ^ (- e0) in
  if reaches then e0 else e0 - 1.

(** The integer nearest to [num / den], the even one on a tie. *)
Definition nearest_even (num den : Z) : Z :=
  let fl := num / den in
  match 2 * (num mod den) ?= den with
  | Lt => fl
  | Gt => fl + 1
  | Eq => if Z.even fl then fl else fl + 1
  end.

(** Rounding of the positive rational [n/d]: 24 significant bits, the unit
    in the last place no smaller than 2^-149. *)
Definition round_pos (n d : positive) : Q :=
  let q := Z.max (exponent n d) (-126) - 23 in
  Qred
    (if 0 <=? q
     then inject_Z (nearest_even (Zpos n) (Zpos d * 2 ^ q) * 2 ^ q)
     else Qmake (nearest_even (Zpos n * 2 ^ (- q)) (Zpos d)) (Z.to_pos (2 ^ (- q)))).

Definition round (x : Q) : Q :=
  match Qnum x with
  | Z0 => 0%Q
  | Zpos n => round_pos n (Qden x)
  | Zneg n => Qopp (round_pos n (Qden x))
  end.

End Float32.

(** ** Arduino [String] (WString.cpp) *)

Module WString.

Local Open Scope string_scope.

(** [s.startsWith(p)] *)
Definition startsWith (s p : string) : bool := String.prefix p s.

Fixpoint find_from (ch : ascii) (s : string) (pos : nat) : Z :=
  match s with
  | EmptyString => -1
  | String c s' =>
      if Ascii.eqb c ch then Z.of_nat pos else find_from ch s' (S pos)
  end.

Fixpoint drop (n : nat) (s : string) : string :=
  match n, s with
  | O, _ => s
  | S n', String _ s' => drop n' s'
  | S _, EmptyString => EmptyString
  end.

(** [s.indexOf(ch, fromIndex)]: [-1] when [fromIndex >= len] or when the
    character does not occur at or after [fromIndex]. *)
Definition indexOf (s : string) (ch : ascii) (fromIndex : nat) : Z :=
  if (String.length s <=? fromIndex)%nat then -1
  else find_from ch (drop fromIndex s) fromIndex.

(** [s.substring(left, right)]: the bounds are swapped when [left > right],
    the result is empty when [left >= len], and [right] is clipped to
    [len]. *)
Definition substring (s : string) (left right : nat) : string :=
  let l := Nat.min left right in
  let r := Nat.max left right in
  if (String.length s <=? l)%nat then EmptyString
  else String.substring l (Nat.min r (String.length s) - l) s.

(** [s.substring(beginIndex)] *)
Definition substring_from (s : string) (beginIndex : nat) : string :=
  substring s beginIndex (String.length s).

(** *** [atol] and [atof] of avr-libc, behind [toInt] and [toFloat] *)

Definition is_space (c : ascii) : bool :=
  let n := nat_of_ascii c in
  ((n =? 32) || ((9 <=? n) && (n <=? 13)))%nat.

Definition digit_of (c : ascii) : option Z :=
  let n := Z.of_nat (nat_of_ascii c) in
  if ((48 <=? n) && (n <=? 57))%Z then Some (n - 48)%Z else None.

Fixpoint skip_space (s : string) : string :=
  match s with
  | String c s' => if is_space c then skip_space s' else s
  | EmptyString => s
  end.

(** The optional sign: [true] for a minus. *)
Definition read_sign (s : string) : bool * string :=
  match s with
  | String "-" s' => (true, s')
  | String "+" s' => (false, s')
  | _ => (false, s)
  end.

(** Reads decimal digits onto the accumulator [acc]; also returns how many
    digits were read and the rest of the string. *)
Fixpoint read_digits (s : string) (acc : Z) (n : nat) : Z * nat * string :=
  match s with
  | String c s' =>
      match digit_of c with
      | Some d => read_digits s' (10 * acc + d)%Z (S n)
      | None => (acc, n, s)
      end
  | EmptyString => (acc, n, s)
  end.

(** [s.toInt()] is [atol(buffer)]: white space, an optional sign, digits;
    [0] when there is no digit; no overflow detection (the [long]
    accumulator wraps). *)
Definition toInt (s : string) : Z :=
  let '(neg, s1) := read_sign (skip_space s) in
  let '(v, _, _) := read_digits s1 0 0 in
  Avr.wrap_s32 (if neg then - v else v).

Definition is_exp_mark (c : ascii) : bool :=
  (Ascii.eqb c "e" || Ascii.eqb c "E")%char.

(** The decimal exponent after the mantissa, [0] when it is absent or has
    no digit. *)
Definition read_exponent (s : string) : Z :=
  match s with
  | String c s' =>
      if is_exp_mark c then
        let '(eneg, s1) := read_sign s' in
        let '(e, ne, _) := read_digits s1 0 0 in
        if (ne =? 0)%nat then 0%Z else if eneg then (- e)%Z else e
      else 0%Z
  | EmptyString => 0%Z
  end.

(** [s.toFloat()] is [atof(buffer)]: white space, an optional sign, digits
    with an optional decimal point, an optional exponent; [0.0] when no
    conversion can be performed.  The value is the binary32 number nearest
    to the decimal literal, so a literal too small for a [float] gives 0.0.
    Outside the model: a literal too large for a [float] and the spellings
    INF, INFINITY and NAN, for which avr-libc returns an infinity or a
    NaN. *)
Definition toFloat (s : string) : Q :=
  let '(neg, s1) := read_sign (skip_space s) in
  let '(ip, ni, s2) := read_digits s1 0 0 in
  let '(mant, nf, s3) :=
    match s2 with
    | String "." s2' => read_digits s2' ip 0
    | _ => (ip, O, s2)
    end in
  if (ni + nf =? 0)%nat then 0%Q
  else
    let e := (read_exponent s3 - Z.of_nat nf)%Z in
    let m := inject_Z (if neg then - mant else mant) in
    Float32.round (m * Qpower (inject_Z 10) e)%Q.

End WString.

(** ** Arrays of the sketches *)

(** [a[i]] with a default for an index out of range (never reached by the
    sketches: every index is a loop counter below the array size, or a
    checked channel number). *)
Definition get {A} (d : A) (a : list A) (i : nat) : A := nth i a d.

(** [a[i] = f(a[i])] *)
Fixpoint upd {A} (i : nat) (f : A -> A) (a : list A) : list A :=
  match a, i with
  | [], _ => []
  | x :: a', O => f x :: a'
  | x :: a', S i' => x :: upd i' f a'
  end.

(** [for (int i = 0; i < n; i++) a[i] = f(i);] over an array of size [n]. *)
Definition fill {A} (n : nat) (f : nat -> A) : list A := map f (seq 0 n).

(** ** The HX711 amplifier driver (library "HX711" by Bogdan Necula) *)

Module HX711.

(** The fields of the [HX711] class the sketch reaches. *)
Record t : Type := mk { GAIN : Z; OFFSET : Z; SCALE : Q }.

(** What the amplifier presents to the driver: [ready] is
    [is_ready()] (DOUT low), [conv k] is the k-th 24-bit conversion that
    [read()] will shift in from now on. *)
Record pins : Type := mkPins { ready : bool; conv : nat -> Z }.

(** A default-constructed object: [OFFSET = 0], [SCALE = 1]. *)
Definition init : t := {| GAIN := 1; OFFSET := 0; SCALE := 1 |}.

(** [set_gain(gain)] *)
Definition set_gain (gain : Z) (h : t) : t :=
  {| GAIN := match gain with 128 => 1 | 64 => 3 | 32 => 2 | _ => GAIN h end;
     OFFSET := OFFSET h; SCALE := SCALE h |}.

(** [begin(dout, pd_sck)]: configures the pins and calls [set_gain(128)]. *)
Definition begin (h : t) : t := set_gain 128 h.

(** [long sum = 0; for (i < times) sum += read();] *)
Fixpoint sum_reads (c : nat -> Z) (times : nat) : Z :=
  match times with
  | O => 0
  | S k => Avr.wrap_s32 (sum_reads c k + c k)
  end.

(** [read_average(times)]: [sum / times], a [long] division. *)
Definition read_average (c : nat -> Z) (times : nat) : Z :=
  Z.quot (sum_reads c times) (Z.of_nat times).

(** [get_value(times)]: [read_average(times) - OFFSET], returned as a
    [double]. *)
Definition get_value (c : nat -> Z) (times : nat) (h : t) : Q :=
  inject_Z (Avr.wrap_s32 (read_average c times - OFFSET h)).

(** [get_units(times)]: [get_value(times) / SCALE].  The sketch never calls
    it. *)
Definition get_units (c : nat -> Z) (times : nat) (h : t) : Q :=
  (get_value c times h / SCALE h)%Q.

(** [tare(times)]: [set_offset(read_average(times))]. *)
Definition tare (c : nat -> Z) (times : nat) (h : t) : t :=
  {| GAIN := GAIN h; OFFSET := read_average c times; SCALE := SCALE h |}.

(** [set_scale(scale)]: [SCALE = scale]. *)
Definition set_scale (scale : Q) (h : t) : t :=
  {| GAIN := GAIN h; OFFSET := OFFSET h; SCALE := scale |}.

(** The range of a conversion: 24 bits, two's complement. *)
Definition in24 (z : Z) : Prop := - 2 ^ 23 <= z < 2 ^ 23.

(** An amplifier whose conversions are all in that range. *)
Definition conv_ok (c : nat -> Z) : Prop := forall k, in24 (c k).

End HX711.

(** ** strain_arduino.ino *)

Module Strain.

Import WString.
Local Open Scope string_scope.

(** The lines the sketch prints. *)
Inductive frame : Type :=
| Ready                                   (* STRAIN_ARDUINO_READY *)
| ChannelInitialized (n : Z)              (* Channel <n> initialized *)
| ChannelNotFound (n : Z)                 (* ERROR: Channel <n> not found! *)
| StrainRecord (t : Z) (v : list Q)       (* STRAIN,<t>,<v1>,...,<v8> *)
| TareComplete                            (* TARE_COMPLETE *)
| CalibrationSet (channel : Z) (factor : Q). (* CALIBRATION_SET,<ch>,<f> *)

Definition is_record (f : frame) : bool :=
  match f with StrainRecord _ _ => true | _ => false end.

(** The globals: [scale[8]], [lastSampleTime], [readings[8]]. *)
Record node : Type := mkNode {
  scale : list HX711.t;
  lastSampleTime : Z;
  readings : list Q
}.

Definition SAMPLE_INTERVAL : Z := 100.

(** The globals before [setup()]. *)
Definition power_on : node :=
  {| scale := repeat HX711.init 8; lastSampleTime := 0;
     readings := repeat 0%Q 8 |}.

(** What one pass of [loop()] finds: the time since boot in milliseconds,
    the state of each amplifier when it is sampled, the line
    [Serial.readStringUntil] returns when one is available, and the
    conversions each amplifier delivers while that command runs (a pass
    that receives a TARE line ends only if every amplifier delivers them,
    see [command_returns]). *)
Record loop_in : Type := mkIn {
  clock : Z;
  hx : nat -> HX711.pins;
  serial : option string;
  cmd_conv : nat -> nat -> Z
}.

(** [setup()] *)
Definition setup (amp : nat -> HX711.pins) (st : node) : node * list frame :=
  ({| scale :=
        fill 8 (fun i =>
          let h := HX711.set_gain 64 (HX711.begin (get HX711.init (scale st) i)) in
          if HX711.ready (amp i) then HX711.tare (HX711.conv (amp i)) 10 h
          else h);
      lastSampleTime := lastSampleTime st;
      readings := readings st |},
   Ready ::
   fill 8 (fun i =>
     if HX711.ready (amp i) then ChannelInitialized (Z.of_nat i + 1)
     else ChannelNotFound (Z.of_nat i + 1))).

(** The three locals of the CALIBRATE branch of [processCommand], as
    functions of the line: [commaIndex], [channel] (a [long] stored in an
    [int]) and [factor]. *)
Definition commaIndex (command : string) : Z := indexOf command "," 10.

Definition channel (command : string) : Z :=
  Avr.wrap_s16 (toInt (substring command 10 (Z.to_nat (commaIndex command)))).

Definition factor (command : string) : Q :=
  toFloat (substring_from command (Z.to_nat (commaIndex command + 1))).

(** [processCommand(command)]: the state it leaves and the lines it prints
    once it has returned; [c i] are the conversions amplifier [i] delivers
    while the command runs.  Whether it returns is [command_returns]
    below. *)
Definition processCommand (command : string) (c : nat -> nat -> Z) (st : node)
  : node * list frame :=
  if startsWith command "TARE" then
    ({| scale := fill 8 (fun i => HX711.tare (c i) 10 (get HX711.init (scale st) i));
        lastSampleTime := lastSampleTime st;
        readings := readings st |},
     [TareComplete])
  else if startsWith command "CALIBRATE" then
    if (0 <? commaIndex command)%Z then
      if ((1 <=? channel command) && (channel command <=? 8))%Z then
        ({| scale := upd (Z.to_nat (channel command - 1))
                         (HX711.set_scale (factor command)) (scale st);
            lastSampleTime := lastSampleTime st;
            readings := readings st |},
         [CalibrationSet (channel command) (factor command)])
      else (st, [])
    else (st, [])
  else if String.eqb command "IDENTITY" then (st, [Ready])
  else (st, []).

(** Whether [processCommand(command)] returns.  The TARE branch calls
    [tare()] on all eight amplifiers without asking [is_ready()] first, and
    the driver's [read()] waits until the amplifier signals a conversion:
    the call returns only if every amplifier answers.  The other branches do
    not read the amplifiers.  [answers i] says that amplifier [i] delivers
    conversions while the command runs. *)
Definition command_returns (command : string) (answers : nat -> bool) : bool :=
  if startsWith command "TARE" then forallb answers (seq 0 8) else true.

(** A call of [processCommand]: what it leaves and prints when it returns,
    [None] when it waits for ever. *)
Definition call (command : string) (answers : nat -> bool)
  (c : nat -> nat -> Z) (st : node) : option (node * list frame) :=
  if command_returns command answers then Some (processCommand command c st)
  else None.

(** The lines that reach [set_scale]: the guards of the CALIBRATE branch. *)
Definition accepted (command : string) : bool :=
  negb (startsWith command "TARE")
  && startsWith command "CALIBRATE"
  && (0 <? commaIndex command)%Z
  && ((1 <=? channel command) && (channel command <=? 8))%Z.

(** The sampling half of [loop()]. *)
Definition sample (inp : loop_in) (st : node) : node * list frame :=
  let currentTime := Avr.millis (clock inp) in
  if Avr.due SAMPLE_INTERVAL currentTime (lastSampleTime st) then
    let readings' :=
      fill 8 (fun i =>
        if HX711.ready (hx inp i)
        then HX711.get_value (HX711.conv (hx inp i)) 1 (get HX711.init (scale st) i)
        else 0%Q) in
    ({| scale := scale st; lastSampleTime := currentTime; readings := readings' |},
     [StrainRecord currentTime readings'])
  else (st, []).

(** [loop()] *)
Definition loop (inp : loop_in) (st : node) : node * list frame :=
  let '(st1, out1) := sample inp st in
  match serial inp with
  | Some command =>
      let '(st2, out2) := processCommand command (cmd_conv inp) st1 in
      (st2, (out1 ++ out2)%list)
  | None => (st1, out1)
  end.

(** Passes of [loop()] one after the other. *)
Fixpoint run (ins : list loop_in) (st : node) : node * list frame :=
  match ins with
  | [] => (st, [])
  | inp :: ins' =>
      let '(st1, out1) := loop inp st in
      let '(st2, out2) := run ins' st1 in
      (st2, (out1 ++ out2)%list)
  end.

(** The clock values at which a pass of [loop()] printed a record. *)
Fixpoint fire_times (ins : list loop_in) (st : node) : list Z :=
  match ins with
  | [] => []
  | inp :: ins' =>
      let '(st1, out1) := loop inp st in
      if existsb is_record out1 then clock inp :: fire_times ins' st1
      else fire_times ins' st1
  end.

(** The states the sketch passes through after [setup()]. *)
Inductive reachable : node -> Prop :=
| reach_setup amp : reachable (fst (setup amp power_on))
| reach_loop inp st : reachable st -> reachable (fst (loop inp st)).

(** Both arrays have their eight entries. *)
Definition wf (st : node) : Prop :=
  List.length (scale st) = 8%nat /\ List.length (readings st) = 8%nat.

(** Every amplifier delivers 24-bit conversions during the pass. *)
Definition valid_in (inp : loop_in) : Prop :=
  forall i, HX711.conv_ok (HX711.conv (hx inp i)) /\ HX711.conv_ok (cmd_conv inp i).

(** Every stored offset is in the 24-bit range. *)
Definition offsets_ok (st : node) : Prop :=
  Forall (fun h => HX711.in24 (HX711.OFFSET h)) (scale st).

(** Timestamp and values of the last record among the frames [out], [d]
    when there is none. *)
Fixpoint last_record (out : list frame) (d : Z * list Q) : Z * list Q :=
  match out with
  | [] => d
  | StrainRecord t v :: out' => last_record out' (t, v)
  | _ :: out' => last_record out' d
  end.

(** A value that is a whole number of counts, less than 2^24 in size. *)
Definition counts (q : Q) : Prop :=
  exists z, q = inject_Z z /\ (- 2 ^ 24 < z < 2 ^ 24)%Z.

(** The values of a record are all such counts. *)
Definition values_bounded (f : frame) : Prop :=
  match f with
  | StrainRecord _ v => Forall counts v
  | _ => True
  end.

(** Every channel holds a strictly positive scale factor. *)
Definition scales_positive (st : node) : Prop :=
  Forall (fun h => (0 < HX711.SCALE h)%Q) (scale st).

(** The line of a pass, if it enters the CALIBRATE branch, carries a factor
    that parses to a positive value. *)
Definition positive_factor (inp : loop_in) : Prop :=
  forall command,
    serial inp = Some command ->
    startsWith command "CALIBRATE" = true ->
    (0 < factor command)%Q.

End Strain.

(** ** The MPU6050 driver (library "MPU6050" by Electronic Cats) *)

Module MPU6050.

(** What [getMotion6(&ax, &ay, &az, &gx, &gy, &gz)] leaves in its six
    [int16_t] out-parameters.  The function returns [void]: it assembles the
    six values, each in the [int16_t] range, from the driver's 14-byte
    buffer whether or not the I2C transaction completed, and [bus_ok], the
    outcome of that transaction, is not reported to the caller. *)
Record motion6 : Type := mk {
  bus_ok : bool;
  ax : Z; ay : Z; az : Z;
  gx : Z; gy : Z; gz : Z
}.

End MPU6050.

(** ** motion_arduino.ino *)

Module Motion.

Import MPU6050.
Local Open Scope R_scope.

(** [atan2(y, x)] of the C library, on real numbers. *)
Definition atan2 (y x : R) : R :=
  if Rlt_dec 0 x then atan (y / x)
  else if Rlt_dec x 0 then
    if Rle_dec 0 y then atan (y / x) + PI else atan (y / x) - PI
  else if Rlt_dec 0 y then PI / 2
  else if Rlt_dec y 0 then - PI / 2
  else 0.

(** The lines the sketch prints. *)
Inductive frame : Type :=
| Ready                                (* MOTION_ARDUINO_READY *)
| SensorInitialized (n : Z)            (* Sensor <n> initialized *)
| SensorNotFound (n : Z)               (* ERROR: Sensor <n> not found! *)
| MotionRecord (t : Z) (v : list R)    (* MOTION,<t>,<p1>,<r1>,<y1>,... *)
| CalibratingStart                     (* CALIBRATING_SENSORS,START *)
| CalibratingComplete.                 (* CALIBRATING_SENSORS,COMPLETE *)

(** What the sketch does that is visible from outside: the lines it prints
    and the blocking calibration calls it makes on a module. *)
Inductive event : Type :=
| Println (f : frame)
| CalibrateGyro (i : nat) (loops : Z)     (* mpu[i].CalibrateGyro(loops) *)
| CalibrateAccel (i : nat) (loops : Z).   (* mpu[i].CalibrateAccel(loops) *)

Definition is_record (e : event) : bool :=
  match e with Println (MotionRecord _ _) => true | _ => false end.

(** The globals [pitch[3]], [roll[3]], [yaw[3]], [lastSampleTime], and the
    function-static [angle_offset] of [loop()]. *)
Record node : Type := mkNode {
  pitch : list R;
  roll : list R;
  yaw : list R;
  lastSampleTime : Z;
  angle_offset : Q
}.

Definition SAMPLE_INTERVAL : Z := 10%Z.
Definition alpha : R := 0.98.

Definition power_on : node :=
  {| pitch := [0; 0; 0]; roll := [0; 0; 0]; yaw := [0; 0; 0];
     lastSampleTime := 0%Z; angle_offset := 0%Q |}.

Record loop_in : Type := mkIn {
  clock : Z;
  mpu : nat -> motion6;
  serial : option string
}.

(** [calibrateSensors()] *)
Definition calibrateSensors : list event :=
  [Println CalibratingStart] ++
  flat_map (fun i => [CalibrateGyro i 6; CalibrateAccel i 6]) (seq 0 2) ++
  [Println CalibratingComplete].

(** [setup()]; [connected i] is what [mpu[i].testConnection()] returns. *)
Definition setup (connected : nat -> bool) : list event :=
  Println Ready ::
  fill 2 (fun i =>
    if connected i then Println (SensorInitialized (Z.of_nat i + 1)%Z)
    else Println (SensorNotFound (Z.of_nat i + 1)%Z)) ++
  calibrateSensors.

(** [processCommand(command)] *)
Definition processCommand (command : string) (st : node) : node * list event :=
  if String.eqb command "CALIBRATE" then (st, calibrateSensors)
  else if String.eqb command "IDENTITY" then (st, [Println Ready])
  else (st, []).

(** [ax * ax + az * az] on [int16_t] operands: they are promoted to [int],
    16 bits on this target, so both products and the sum wrap. *)
Definition sum_squares (x z : Z) : Z :=
  Avr.wrap_s16 (Avr.wrap_s16 (x * x) + Avr.wrap_s16 (z * z))%Z.

(** [atan2(ay, sqrt(ax * ax + az * az)) * 180.0 / PI].  Where the wrapped
    sum is negative the C [sqrt] yields NaN; that case is outside the
    real-number model, whose [sqrt] is 0 there. *)
Definition accelPitch (m : motion6) : R :=
  atan2 (IZR (ay m)) (sqrt (IZR (sum_squares (ax m) (az m)))) * 180 / PI.

(** [atan2(-ax, az) * 180.0 / PI]; the negation is an [int] negation. *)
Definition accelRoll (m : motion6) : R :=
  atan2 (IZR (Avr.wrap_s16 (- ax m)%Z)) (IZR (az m)) * 180 / PI.

(** [SAMPLE_INTERVAL / 1000.0] *)
Definition dt : R := IZR SAMPLE_INTERVAL / 1000.

(** The body of [for (int i = 0; i < 2; i++)] in [loop()]: from the six
    values read and the previous [pitch[i]], [roll[i]], [yaw[i]] to their
    new values. *)
Definition fuse (m : motion6) (p r y : R) : R * R * R :=
  let gyroX := IZR (gx m) / 131 in
  let gyroY := IZR (gy m) / 131 in
  let gyroZ := IZR (gz m) / 131 in
  let gyroPitch := p + gyroY * dt in
  let gyroRoll := r + gyroX * dt in
  let gyroYaw := y + gyroZ * dt in
  (alpha * gyroPitch + (1 - alpha) * accelPitch m,
   alpha * gyroRoll + (1 - alpha) * accelRoll m,
   gyroYaw).

(** The fusion step as the specification words it, for comparison with
    [fuse]: the squares and the negation are taken on the mathematical
    integers. *)
Definition spec_fuse (m : motion6) (p r y : R) : R * R * R :=
  (alpha * (p + (IZR (gy m) / 131) * 0.01)
   + (1 - alpha)
     * (atan2 (IZR (ay m)) (sqrt (IZR (ax m * ax m + az m * az m)%Z)) * 180 / PI),
   alpha * (r + (IZR (gx m) / 131) * 0.01)
   + (1 - alpha) * (atan2 (IZR (- ax m)%Z) (IZR (az m)) * 180 / PI),
   y + (IZR (gz m) / 131) * 0.01).

(** What the loop body computes for real module [i] from the state [st]
    and the values read in this pass. *)
Definition fused (mpu : nat -> motion6) (p r y : list R) (i : nat) : R * R * R :=
  fuse (mpu i) (get 0 p i) (get 0 r i) (get 0 y i).

(** The literal [0.01] as a [float]. *)
Definition increment : Q := Float32.round (1 # 100).

(** [angle_offset += 0.01; if (angle_offset > 30.0) angle_offset = 0.0;]
    on [float]s: the sum is rounded, the comparison is exact. *)
Definition next_offset (o : Q) : Q :=
  let o' := Float32.round (o + increment)%Q in
  if negb (Qle_bool o' 30) then 0%Q else o'.

(** From [o], the counter goes up on each of the next [n] sampling passes
    and stays at or below 30. *)
Fixpoint climbs (n : nat) (o : Q) : bool :=
  match n with
  | O => true
  | S n' =>
      let o' := next_offset o in
      negb (Qle_bool o' o) && Qle_bool o' 30 && climbs n' o'
  end.

(** The sampling half of [loop()].  The [for] loop assigns entries 0 and 1 of
    the three arrays, the three statements after it assign entry 2. *)
Definition sample (inp : loop_in) (st : node) : node * list event :=
  let currentTime := Avr.millis (clock inp) in
  if Avr.due SAMPLE_INTERVAL currentTime (lastSampleTime st) then
    let e := fused (mpu inp) (pitch st) (roll st) (yaw st) in
    let '(p0, r0, y0) := e 0%nat in
    let '(p1, r1, y1) := e 1%nat in
    let o := next_offset (angle_offset st) in
    let p2 := p1 + Q2R o in
    ({| pitch := [p0; p1; p2]; roll := [r0; r1; r1]; yaw := [y0; y1; y1];
        lastSampleTime := currentTime; angle_offset := o |},
     [Println (MotionRecord currentTime [p0; r0; y0; p1; r1; y1; p2; r1; y1])])
  else (st, []).

(** [loop()] *)
Definition loop (inp : loop_in) (st : node) : node * list event :=
  let '(st1, out1) := sample inp st in
  match serial inp with
  | Some command =>
      let '(st2, out2) := processCommand command st1 in
      (st2, out1 ++ out2)
  | None => (st1, out1)
  end.

Fixpoint run (ins : list loop_in) (st : node) : node * list event :=
  match ins with
  | [] => (st, [])
  | inp :: ins' =>
      let '(st1, out1) := loop inp st in
      let '(st2, out2) := run ins' st1 in
      (st2, out1 ++ out2)
  end.

(** Everything the node does from power-on: [setup()], then the passes of
    [loop()]. *)
Definition boot (connected : nat -> bool) (ins : list loop_in) : list event :=
  setup connected ++ snd (run ins power_on).

(** The clock values at which a pass of [loop()] printed a record. *)
Fixpoint fire_times (ins : list loop_in) (st : node) : list Z :=
  match ins with
  | [] => []
  | inp :: ins' =>
      let '(st1, out1) := loop inp st in
      if existsb is_record out1 then clock inp :: fire_times ins' st1
      else fire_times ins' st1
  end.

(** The same pass with nothing waiting on the serial port. *)
Definition mute (inp : loop_in) : loop_in :=
  {| clock := clock inp; mpu := mpu inp; serial := None |}.

(** The records among the events of a run. *)
Definition records (out : list event) : list event := filter is_record out.

(** The nine angles in the order a record lists them. *)
Definition snapshot (st : node) : list R :=
  flat_map (fun i => [get 0 (pitch st) i; get 0 (roll st) i; get 0 (yaw st) i])
           (seq 0 3).

(** Timestamp and values of the last record among the events [out], [d]
    when there is none. *)
Fixpoint last_record (out : list event) (d : Z * list R) : Z * list R :=
  match out with
  | [] => d
  | Println (MotionRecord t v) :: out' => last_record out' (t, v)
  | _ :: out' => last_record out' d
  end.

(** The third module is the second one with the offset, between 0 and 30,
    added to its pitch. *)
Definition third_follows (st : node) : Prop :=
  get 0 (pitch st) 2 = get 0 (pitch st) 1 + Q2R (angle_offset st)
  /\ get 0 (roll st) 2 = get 0 (roll st) 1
  /\ get 0 (yaw st) 2 = get 0 (yaw st) 1
  /\ 0 <= Q2R (angle_offset st) <= 30.

End Motion.

(** * Concrete inputs

    The inputs at which the properties below are exercised. *)

Module Inputs.

Local Open Scope string_scope.

(** A pass at clock [t] with every amplifier ready and delivering [r], and
    no line on the serial port. *)
Definition steady_in (t r : Z) : Strain.loop_in :=
  {| Strain.clock := t;
     Strain.hx := fun _ => {| HX711.ready := true; HX711.conv := fun _ => r |};
     Strain.serial := None;
     Strain.cmd_conv := fun _ _ => 0 |}.

(** A pass at clock [t] where only channel 1 (index 0) is ready, delivering
    [r], with [line] waiting on the serial port. *)
Definition first_only_in (t r : Z) (line : option string) : Strain.loop_in :=
  {| Strain.clock := t;
     Strain.hx := fun i => {| HX711.ready := Nat.eqb i 0;
                              HX711.conv := fun _ => r |};
     Strain.serial := line;
     Strain.cmd_conv := fun _ _ => 0 |}.

(** Amplifiers that are all present at boot and deliver [r]. *)
Definition all_present (r : Z) : nat -> HX711.pins :=
  fun _ => {| HX711.ready := true; HX711.conv := fun _ => r |}.

(** A motion pass at clock [t]: both modules level and at rest (1 g on the
    Z axis at the 2 g range), bus transactions completing. *)
Definition level : MPU6050.motion6 :=
  {| MPU6050.bus_ok := true;
     MPU6050.ax := 0; MPU6050.ay := 0; MPU6050.az := 16384;
     MPU6050.gx := 0; MPU6050.gy := 0; MPU6050.gz := 0 |}.

Definition level_in (t : Z) (line : option string) : Motion.loop_in :=
  {| Motion.clock := t; Motion.mpu := fun _ => level; Motion.serial := line |}.

(** A module tilted by about a third of a degree about its pitch axis, at
    rest: the accelerometer reads (0, 100, 16384). *)
Definition tilted : MPU6050.motion6 :=
  {| MPU6050.bus_ok := true;
     MPU6050.ax := 0; MPU6050.ay := 100; MPU6050.az := 16384;
     MPU6050.gx := 0; MPU6050.gy := 0; MPU6050.gz := 0 |}.

(** A read whose bus transaction did not complete; the out-parameters hold
    what the driver's buffer held, here a turn rate of 1 degree per second
    about Z. *)
Definition stale : MPU6050.motion6 :=
  {| MPU6050.bus_ok := false;
     MPU6050.ax := 0; MPU6050.ay := 0; MPU6050.az := 16384;
     MPU6050.gx := 0; MPU6050.gy := 0; MPU6050.gz := 131 |}.

Definition failed_in (t : Z) : Motion.loop_in :=
  {| Motion.clock := t; Motion.mpu := fun _ => stale; Motion.serial := None |}.

End Inputs.

Import Inputs.

(** * Properties *)

Local Open Scope string_scope.

(** ** Machine arithmetic *)

Lemma wrap_s32_small (z : Z) : - 2 ^ 31 <= z < 2 ^ 31 -> Avr.wrap_s32 z = z.
Proof.
  intros H. unfold Avr.wrap_s32.
  rewrite Z.mod_small by lia. lia.
Qed.

Lemma wrap_s16_small (z : Z) : - 2 ^ 15 <= z < 2 ^ 15 -> Avr.wrap_s16 z = z.
Proof.
  intros H. unfold Avr.wrap_s16.
  rewrite Z.mod_small by lia. lia.
Qed.

(** Between two clock values in order, the wrapped difference of their
    [millis()] never exceeds the true difference. *)
Lemma due_gap (interval t0 t : Z) :
  0 <= interval < 2 ^ 32 -> t0 <= t ->
  Avr.due interval (Avr.millis t) (Avr.millis t0) = true ->
  interval <= t - t0.
Proof.
  intros Hi Ht. unfold Avr.due, Avr.millis, Avr.wrap_u32.
  rewrite <- Zminus_mod, (Z.mod_small interval) by lia.
  intros H. apply Z.leb_le in H.
  pose proof (Z.mod_le (t - t0) (2 ^ 32) ltac:(lia) ltac:(lia)). lia.
Qed.

(** ** Arrays *)

Lemma get_fill {A} (d : A) (n : nat) (f : nat -> A) (i : nat) :
  (i < n)%nat -> get d (fill n f) i = f i.
Proof.
  intros H. unfold get, fill.
  rewrite nth_indep with (d' := f 0%nat) by (rewrite List.length_map, List.length_seq; exact H).
  rewrite map_nth, seq_nth by exact H. reflexivity.
Qed.

Lemma length_fill {A} (n : nat) (f : nat -> A) : List.length (fill n f) = n.
Proof. unfold fill. rewrite List.length_map, List.length_seq. reflexivity. Qed.

Lemma Forall_upd {A} (P : A -> Prop) (f : A -> A) (i : nat) (a : list A) :
  (forall x, P x -> P (f x)) -> Forall P a -> Forall P (upd i f a).
Proof.
  intros Hf Ha. revert i.
  induction Ha as [|x a Hx Ha IH]; intros i; simpl.
  - destruct i; constructor.
  - destruct i; constructor; auto.
Qed.

(** ** The strain sketch: how a pass of [loop()] decomposes *)

Lemma strain_sample_due (inp : Strain.loop_in) (st : Strain.node) :
  Avr.due Strain.SAMPLE_INTERVAL (Avr.millis (Strain.clock inp))
          (Strain.lastSampleTime st) = true ->
  Strain.sample inp st =
  (let v := fill 8 (fun i =>
              if HX711.ready (Strain.hx inp i)
              then HX711.get_value (HX711.conv (Strain.hx inp i)) 1
                     (get HX711.init (Strain.scale st) i)
              else 0%Q) in
   ({| Strain.scale := Strain.scale st;
       Strain.lastSampleTime := Avr.millis (Strain.clock inp);
       Strain.readings := v |},
    [Strain.StrainRecord (Avr.millis (Strain.clock inp)) v])).
Proof. intros H. unfold Strain.sample. rewrite H. reflexivity. Qed.

Lemma strain_sample_idle (inp : Strain.loop_in) (st : Strain.node) :
  Avr.due Strain.SAMPLE_INTERVAL (Avr.millis (Strain.clock inp))
          (Strain.lastSampleTime st) = false ->
  Strain.sample inp st = (st, []).
Proof. intros H. unfold Strain.sample. rewrite H. reflexivity. Qed.

(** A command never prints a record and never touches the schedule. *)
Lemma strain_command_keeps_schedule command c st :
  Strain.lastSampleTime (fst (Strain.processCommand command c st))
  = Strain.lastSampleTime st
  /\ filter Strain.is_record (snd (Strain.processCommand command c st)) = [].
Proof.
  unfold Strain.processCommand.
  repeat match goal with
         | |- context [if ?b then _ else _] => destruct b
         end; simpl; auto.
Qed.

Lemma strain_loop_split inp st :
  Strain.loop inp st =
  (fst (match Strain.serial inp with
        | Some command =>
            Strain.processCommand command (Strain.cmd_conv inp)
              (fst (Strain.sample inp st))
        | None => (fst (Strain.sample inp st), [])
        end),
   (snd (Strain.sample inp st) ++
    snd (match Strain.serial inp with
         | Some command =>
             Strain.processCommand command (Strain.cmd_conv inp)
               (fst (Strain.sample inp st))
         | None => (fst (Strain.sample inp st), [])
         end))%list).
Proof.
  unfold Strain.loop.
  destruct (Strain.sample inp st) as [st1 out1]; simpl.
  destruct (Strain.serial inp) as [command|]; simpl.
  - destruct (Strain.processCommand command (Strain.cmd_conv inp) st1); reflexivity.
  - rewrite app_nil_r. reflexivity.
Qed.

(** ** The amplifier driver *)

Lemma sum_reads_steady (c : nat -> Z) (r : Z) (n : nat) :
  - 2 ^ 23 <= r < 2 ^ 23 -> (n <= 10)%nat ->
  (forall k, (k < n)%nat -> c k = r) ->
  HX711.sum_reads c n = Z.of_nat n * r.
Proof.
  intros Hr. induction n as [|n IH]; intros Hn Hc.
  - reflexivity.
  - cbn [HX711.sum_reads].
    rewrite IH by (try lia; intros k Hk; apply Hc; lia).
    rewrite (Hc n) by lia.
    rewrite wrap_s32_small by nia. lia.
Qed.

Lemma read_average_steady (c : nat -> Z) (r : Z) (n : nat) :
  - 2 ^ 23 <= r < 2 ^ 23 -> (0 < n <= 10)%nat ->
  (forall k, (k < n)%nat -> c k = r) ->
  HX711.read_average c n = r.
Proof.
  intros Hr Hn Hc. unfold HX711.read_average.
  rewrite (sum_reads_steady c r n) by (auto; lia).
  rewrite Z.mul_comm. apply Z.quot_mul. lia.
Qed.

(** On one amplifier: [get_value()] right after [tare()] is zero when the
    raw signal holds still. *)
Lemma get_value_after_tare (c c' : nat -> Z) (r : Z) (h : HX711.t) :
  - 2 ^ 23 <= r < 2 ^ 23 ->
  (forall k, (k < 10)%nat -> c k = r) -> c' 0%nat = r ->
  HX711.get_value c' 1 (HX711.tare c 10 h) = 0%Q.
Proof.
  intros Hr Hc Hc'. unfold HX711.get_value, HX711.tare; simpl HX711.OFFSET.
  rewrite (read_average_steady c r 10) by (auto; lia).
  rewrite (read_average_steady c' r 1)
    by (auto; try lia; intros k Hk; replace k with 0%nat by lia; exact Hc').
  rewrite Z.sub_diag. reflexivity.
Qed.

(** C9. On a pass that samples, exactly one record is printed and it has
    eight values; a channel whose [is_ready()] check fails contributes the
    value 0, every other channel its [get_value()] reading. *)
Theorem not_ready_channel_reads_zero (inp : Strain.loop_in) (st : Strain.node) :
  Avr.due Strain.SAMPLE_INTERVAL (Avr.millis (Strain.clock inp))
          (Strain.lastSampleTime st) = true ->
  exists v rest,
    snd (Strain.loop inp st)
    = Strain.StrainRecord (Avr.millis (Strain.clock inp)) v :: rest
    /\ filter Strain.is_record rest = []
    /\ List.length v = 8%nat
    /\ forall i, (i < 8)%nat ->
         (HX711.ready (Strain.hx inp i) = false -> get 0%Q v i = 0%Q) /\
         (HX711.ready (Strain.hx inp i) = true ->
          get 0%Q v i
          = HX711.get_value (HX711.conv (Strain.hx inp i)) 1
              (get HX711.init (Strain.scale st) i)).
Proof.
  intros Hdue.
  rewrite strain_loop_split, (strain_sample_due inp st Hdue).
  cbn [fst snd app]. eexists; eexists; split; [reflexivity|].
  split; [|split].
  - destruct (Strain.serial inp) as [command|]; [|reflexivity].
    apply strain_command_keeps_schedule.
  - apply length_fill.
  - intros i Hi. rewrite get_fill by exact Hi.
    split; intros ->; reflexivity.
Qed.

Lemma not_ready_channel_reads_zero_witness :
  exists v rest,
    snd (Strain.loop (first_only_in 100 250 (Some "IDENTITY")) Strain.power_on)
    = Strain.StrainRecord 100 v :: rest
    /\ filter Strain.is_record rest = []
    /\ List.length v = 8%nat
    /\ forall i, (i < 8)%nat ->
         (HX711.ready (Strain.hx (first_only_in 100 250 (Some "IDENTITY")) i) = false ->
          get 0%Q v i = 0%Q) /\
         (HX711.ready (Strain.hx (first_only_in 100 250 (Some "IDENTITY")) i) = true ->
          get 0%Q v i
          = HX711.get_value
              (HX711.conv (Strain.hx (first_only_in 100 250 (Some "IDENTITY")) i)) 1
              (get HX711.init (Strain.scale Strain.power_on) i)).
Proof.
  apply (not_ready_channel_reads_zero
           (first_only_in 100 250 (Some "IDENTITY")) Strain.power_on).
  reflexivity.
Defined.

Lemma offset_upd_scale (i : nat) (s : Q) (a : list HX711.t) (j : nat) :
  HX711.OFFSET (get HX711.init (upd i (HX711.set_scale s) a) j)
  = HX711.OFFSET (get HX711.init a j).
Proof.
  unfold get. revert i j.
  induction a as [|x a IH]; intros [|i] [|j]; simpl; auto.
Qed.

(** The reading a pass takes does not look at the stored scale factor:
    two states that differ only in [SCALE] print the same record. *)
Lemma strain_record_ignores_scale (inp : Strain.loop_in) (st : Strain.node)
  (i : nat) (s : Q) :
  snd (Strain.sample inp
         {| Strain.scale := upd i (HX711.set_scale s) (Strain.scale st);
            Strain.lastSampleTime := Strain.lastSampleTime st;
            Strain.readings := Strain.readings st |})
  = snd (Strain.sample inp st).
Proof.
  unfold Strain.sample; cbn [Strain.lastSampleTime Strain.scale].
  destruct (Avr.due _ _ _); [|reflexivity].
  cbn [snd]. do 2 f_equal.
  unfold fill. apply map_ext. intros j.
  destruct (HX711.ready (Strain.hx inp j)); [|reflexivity].
  unfold HX711.get_value. rewrite offset_upd_scale. reflexivity.
Qed.

(** The library's [get_units], which the sketch does not call, is the
    function that divides by the factor. *)
Lemma get_units_divides (c : nat -> Z) (h : HX711.t) (s : Q) :
  (HX711.get_units c 1 (HX711.set_scale s h)
   == HX711.get_value c 1 h / s)%Q.
Proof. unfold HX711.get_units, HX711.get_value; simpl. reflexivity. Qed.

(** C1. The sketch at [CALIBRATE,1,2.0] followed by a sampling pass with
    channel 1 ready at raw count 100 and offset 0: the factor 2 is stored,
    and the record still carries 100, not (100 - 0) / 2. *)
Theorem calibrate_leaves_reading_unscaled :
  let st1 := fst (Strain.processCommand "CALIBRATE,1,2.0" (fun _ _ => 0)
                    Strain.power_on) in
  (HX711.SCALE (get HX711.init (Strain.scale st1) 0) == 2)%Q
  /\ HX711.OFFSET (get HX711.init (Strain.scale st1) 0) = 0
  /\ snd (Strain.loop (first_only_in 100 100 None) st1)
     = [Strain.StrainRecord 100 [100; 0; 0; 0; 0; 0; 0; 0]%Q]
  /\ ~ (100 == (100 - 0) / 2)%Q.
Proof.
  cbv zeta. split; [reflexivity|]. split; [reflexivity|].
  split; [reflexivity|]. intros H. discriminate H.
Qed.

(** ** The command dispatchers *)

(** C5, as stated, fails: a CALIBRATE line whose factor cannot be parsed is
    not dropped.  [toFloat] yields 0.0 for it, the sketch stores that
    factor in channel 1 and acknowledges it. *)
Lemma unparsable_factor_is_applied :
  let r := Strain.processCommand "CALIBRATE,1,abc" (fun _ _ => 0) Strain.power_on in
  snd r = [Strain.CalibrationSet 1 0]
  /\ HX711.SCALE (get HX711.init (Strain.scale Strain.power_on) 0) = 1%Q
  /\ HX711.SCALE (get HX711.init (Strain.scale (fst r)) 0) = 0%Q
  /\ fst r <> Strain.power_on.
Proof.
  cbv zeta. repeat split; try reflexivity.
  intros H. apply (f_equal (fun st => HX711.SCALE (get HX711.init (Strain.scale st) 0))) in H.
  discriminate H.
Qed.

(** Two more lines the strain dispatcher acts on: [startsWith] accepts any
    line that begins with TARE, and a channel number is cut to 16 bits
    before the range check. *)
Example tare_prefix_is_taken :
  snd (Strain.processCommand "TAREX" (fun _ _ => 0) Strain.power_on)
  = [Strain.TareComplete].
Proof. reflexivity. Qed.

Example wide_channel_is_truncated :
  snd (Strain.processCommand "CALIBRATE,65537,2" (fun _ _ => 0) Strain.power_on)
  = [Strain.CalibrationSet 1 2].
Proof. reflexivity. Qed.

(** C5, amended.  Strain node: a line that does not start with TARE, is not
    IDENTITY and, when it starts with CALIBRATE, has no comma from position
    10 on or a channel number outside 1..8, prints nothing and leaves the
    state as it is.  Motion node: every line other than CALIBRATE and
    IDENTITY prints nothing and leaves the state as it is. *)
Theorem dropped_lines_are_silent :
  (forall (command : string) (c : nat -> nat -> Z) (st : Strain.node),
      WString.startsWith command "TARE" = false ->
      command <> "IDENTITY" ->
      (WString.startsWith command "CALIBRATE" = true ->
       Strain.commaIndex command <= 0
       \/ Strain.channel command < 1 \/ 8 < Strain.channel command) ->
      Strain.processCommand command c st = (st, []))
  /\ (forall (command : string) (st : Motion.node),
         command <> "CALIBRATE" -> command <> "IDENTITY" ->
         Motion.processCommand command st = (st, [])).
Proof.
  split.
  - intros command c st Htare Hid Hcal.
    unfold Strain.processCommand. rewrite Htare.
    destruct (WString.startsWith command "CALIBRATE") eqn:Hc.
    + destruct (Hcal eq_refl) as [H|[H|H]].
      * apply Z.ltb_ge in H. rewrite H. reflexivity.
      * apply Z.leb_gt in H. rewrite H.
        destruct (0 <? Strain.commaIndex command)%Z; reflexivity.
      * apply Z.leb_gt in H. rewrite H, andb_false_r.
        destruct (0 <? Strain.commaIndex command)%Z; reflexivity.
    + apply String.eqb_neq in Hid. rewrite Hid. reflexivity.
  - intros command st Hcal Hid. unfold Motion.processCommand.
    apply String.eqb_neq in Hcal, Hid. rewrite Hcal, Hid. reflexivity.
Qed.

Lemma dropped_lines_are_silent_witness :
  Strain.processCommand "CALIBRATE,9,1.0" (fun _ _ => 0) Strain.power_on
  = (Strain.power_on, [])
  /\ Motion.processCommand "CALIBRATE,3,2.5" Motion.power_on
     = (Motion.power_on, []).
Proof.
  split.
  - apply (proj1 dropped_lines_are_silent "CALIBRATE,9,1.0").
    + reflexivity.
    + discriminate.
    + intros _. right; right. reflexivity.
  - apply (proj2 dropped_lines_are_silent "CALIBRATE,3,2.5").
    + discriminate.
    + discriminate.
Defined.

(** ** Arrays, continued *)

Lemma length_upd {A} (i : nat) (f : A -> A) (a : list A) :
  List.length (upd i f a) = List.length a.
Proof.
  revert i. induction a as [|x a IH]; intros [|i]; simpl; auto.
Qed.

Lemma get_upd_same {A} (d : A) (i : nat) (f : A -> A) (a : list A) :
  (i < List.length a)%nat -> get d (upd i f a) i = f (get d a i).
Proof.
  unfold get. revert i. induction a as [|x a IH]; intros [|i] H; simpl in *;
    try lia; auto. apply IH. lia.
Qed.

Lemma get_upd_other {A} (d : A) (i j : nat) (f : A -> A) (a : list A) :
  i <> j -> get d (upd i f a) j = get d a j.
Proof.
  unfold get. revert i j. induction a as [|x a IH]; intros [|i] [|j] H; simpl;
    try reflexivity; try congruence. apply IH. congruence.
Qed.

Lemma fill_ext {A} (n : nat) (f g : nat -> A) :
  (forall i, (i < n)%nat -> f i = g i) -> fill n f = fill n g.
Proof.
  intros H. unfold fill. apply map_ext_in. intros i Hi.
  apply in_seq in Hi. apply H. lia.
Qed.

Lemma fill_get {A} (d : A) (n : nat) (a : list A) :
  List.length a = n -> fill n (get d a) = a.
Proof.
  intros <-. unfold fill, get.
  induction a as [|x a IH]; [reflexivity|].
  cbn [List.length seq map nth]. f_equal.
  rewrite <- seq_shift, map_map. exact IH.
Qed.

(** ** The scale factor *)

(** C6, as stated, fails: [set_scale] stores what it is given.  After
    [setup()], one pass that receives [CALIBRATE,1,-2.5] leaves channel 1
    with the factor -2.5. *)
Lemma nonpositive_scale_reachable :
  let st := fst (Strain.loop (first_only_in 100 250 (Some "CALIBRATE,1,-2.5"))
                   (fst (Strain.setup (all_present 250) Strain.power_on))) in
  Strain.reachable st
  /\ (HX711.SCALE (get HX711.init (Strain.scale st) 0) == -2.5)%Q
  /\ ~ (0 < HX711.SCALE (get HX711.init (Strain.scale st) 0))%Q.
Proof.
  cbv zeta. split; [|split].
  - apply Strain.reach_loop, Strain.reach_setup.
  - reflexivity.
  - intros H. discriminate H.
Qed.

Lemma Forall_fill {A} (P : A -> Prop) (n : nat) (f : nat -> A) :
  (forall i, P (f i)) -> Forall P (fill n f).
Proof.
  intros H. unfold fill. apply Forall_forall. intros x Hx.
  apply in_map_iff in Hx. destruct Hx as [i [<- _]]. apply H.
Qed.

Lemma Forall_get {A} (P : A -> Prop) (d : A) (a : list A) (i : nat) :
  P d -> Forall P a -> P (get d a i).
Proof.
  intros Hd Ha. unfold get. revert i.
  induction Ha as [|x a Hx Ha IH]; intros [|i]; simpl; auto.
Qed.

Lemma scales_positive_setup amp :
  Forall (fun h => HX711.SCALE h = 1%Q)
         (Strain.scale (fst (Strain.setup amp Strain.power_on))).
Proof.
  unfold Strain.setup; cbn [fst Strain.scale]. apply Forall_fill. intros i.
  assert (H : HX711.SCALE (get HX711.init (Strain.scale Strain.power_on) i) = 1%Q).
  { apply (Forall_get (fun h => HX711.SCALE h = 1%Q)); [reflexivity|].
    repeat constructor. }
  destruct (HX711.ready (amp i)); exact H.
Qed.

Lemma scales_positive_command command c st :
  (WString.startsWith command "CALIBRATE" = true -> (0 < Strain.factor command)%Q) ->
  Strain.scales_positive st ->
  Strain.scales_positive (fst (Strain.processCommand command c st)).
Proof.
  intros Hf Hst. unfold Strain.processCommand.
  destruct (WString.startsWith command "TARE").
  - cbn [fst]. unfold Strain.scales_positive; cbn [Strain.scale].
    apply Forall_fill. intros i. cbn [HX711.tare HX711.SCALE].
    apply (Forall_get (fun h => (0 < HX711.SCALE h)%Q)); [reflexivity | exact Hst].
  - destruct (WString.startsWith command "CALIBRATE").
    + destruct (0 <? Strain.commaIndex command)%Z; [|exact Hst].
      destruct ((1 <=? Strain.channel command) && (Strain.channel command <=? 8))%Z;
        [|exact Hst].
      cbn [fst]. unfold Strain.scales_positive; cbn [Strain.scale].
      apply Forall_upd; [|exact Hst]. intros x _. exact (Hf eq_refl).
    + destruct (String.eqb command "IDENTITY"); exact Hst.
Qed.

Lemma scales_positive_loop inp st :
  Strain.positive_factor inp -> Strain.scales_positive st ->
  Strain.scales_positive (fst (Strain.loop inp st)).
Proof.
  intros Hf Hst. rewrite strain_loop_split. cbn [fst].
  assert (H1 : Strain.scales_positive (fst (Strain.sample inp st))).
  { unfold Strain.sample. destruct (Avr.due _ _ _); exact Hst. }
  destruct (Strain.serial inp) as [command|] eqn:Hs; [|exact H1].
  apply scales_positive_command; [|exact H1].
  apply Hf. exact Hs.
Qed.

Lemma strain_command_wf command c st :
  Strain.wf st -> Strain.wf (fst (Strain.processCommand command c st)).
Proof.
  intros [Hs Hr]. unfold Strain.processCommand.
  repeat match goal with
         | |- context [if ?b then _ else _] => destruct b
         end; cbn [fst]; unfold Strain.wf; cbn [Strain.scale Strain.readings];
    rewrite ?length_fill, ?length_upd; auto.
Qed.

Lemma strain_loop_wf inp st :
  Strain.wf st -> Strain.wf (fst (Strain.loop inp st)).
Proof.
  intros H. rewrite strain_loop_split. cbn [fst].
  assert (H1 : Strain.wf (fst (Strain.sample inp st))).
  { unfold Strain.sample. destruct (Avr.due _ _ _); [|exact H].
    destruct H as [Hs Hr]. split; cbn; [exact Hs|reflexivity]. }
  destruct (Strain.serial inp); [|exact H1].
  apply strain_command_wf, H1.
Qed.

Lemma strain_reachable_wf (st : Strain.node) : Strain.reachable st -> Strain.wf st.
Proof.
  intros H. induction H as [amp|inp st _ IH].
  - split; reflexivity.
  - apply strain_loop_wf, IH.
Qed.

(** What a command does to the scale factor of channel [j + 1]. *)
Lemma strain_command_scale command c st j :
  Strain.wf st -> (j < 8)%nat ->
  HX711.SCALE (get HX711.init (Strain.scale (fst (Strain.processCommand command c st))) j)
  = if Strain.accepted command && Nat.eqb (Z.to_nat (Strain.channel command - 1)) j
    then Strain.factor command
    else HX711.SCALE (get HX711.init (Strain.scale st) j).
Proof.
  intros [Hs _] Hj. unfold Strain.processCommand, Strain.accepted.
  destruct (WString.startsWith command "TARE"); cbn [negb andb].
  - cbn [fst Strain.scale]. rewrite get_fill by exact Hj. reflexivity.
  - destruct (WString.startsWith command "CALIBRATE"); cbn [andb].
    + destruct (0 <? Strain.commaIndex command)%Z; cbn [andb]; [|reflexivity].
      destruct ((1 <=? Strain.channel command) && (Strain.channel command <=? 8))%Z
        eqn:Hch; cbn [andb]; [|reflexivity].
      apply andb_true_iff in Hch. destruct Hch as [H1 H8].
      apply Z.leb_le in H1, H8. cbn [fst Strain.scale].
      destruct (Nat.eqb_spec (Z.to_nat (Strain.channel command - 1)) j) as [<-|Hne].
      * rewrite get_upd_same by (rewrite Hs; lia). reflexivity.
      * rewrite get_upd_other by exact Hne. reflexivity.
    + destruct (String.eqb command "IDENTITY"); reflexivity.
Qed.

Lemma strain_loop_scale inp st j :
  Strain.wf st -> (j < 8)%nat ->
  HX711.SCALE (get HX711.init (Strain.scale (fst (Strain.loop inp st))) j)
  = match Strain.serial inp with
    | Some command =>
        if Strain.accepted command
           && Nat.eqb (Z.to_nat (Strain.channel command - 1)) j
        then Strain.factor command
        else HX711.SCALE (get HX711.init (Strain.scale st) j)
    | None => HX711.SCALE (get HX711.init (Strain.scale st) j)
    end.
Proof.
  intros Hwf Hj. rewrite strain_loop_split. cbn [fst].
  assert (Hsc : Strain.scale (fst (Strain.sample inp st)) = Strain.scale st).
  { unfold Strain.sample. destruct (Avr.due _ _ _); reflexivity. }
  assert (Hw : Strain.wf (fst (Strain.sample inp st))).
  { unfold Strain.sample. destruct (Avr.due _ _ _); [|exact Hwf].
    destruct Hwf as [Hs Hr]. split; cbn; [exact Hs|reflexivity]. }
  destruct (Strain.serial inp) as [command|].
  - rewrite (strain_command_scale command _ _ j Hw Hj), Hsc. reflexivity.
  - cbn [fst]. rewrite Hsc. reflexivity.
Qed.

(** C6, amended.  After [setup()] every channel's scale factor is 1.0.  A
    pass of [loop()] changes a scale factor only when its line is an
    accepted CALIBRATE (not beginning with TARE, a comma from position 10
    on, channel in 1..8), and then the factor of that one channel becomes
    the [float] parsed from the line, whatever it is; there is no
    validation.  So every factor stays strictly positive through any passes
    in which every CALIBRATE line carries a factor that parses to a positive
    [float]. *)
Theorem scale_positive_under_positive_factors
  (amp : nat -> HX711.pins) (ins : list Strain.loop_in) :
  Forall Strain.positive_factor ins ->
  Forall (fun h => HX711.SCALE h = 1%Q)
         (Strain.scale (fst (Strain.setup amp Strain.power_on)))
  /\ Strain.scales_positive
       (fst (Strain.run ins (fst (Strain.setup amp Strain.power_on))))
  /\ (forall (st : Strain.node) (inp : Strain.loop_in) (j : nat),
         Strain.reachable st -> (j < 8)%nat ->
         HX711.SCALE (get HX711.init (Strain.scale (fst (Strain.loop inp st))) j)
         = match Strain.serial inp with
           | Some command =>
               if Strain.accepted command
                  && Nat.eqb (Z.to_nat (Strain.channel command - 1)) j
               then Strain.factor command
               else HX711.SCALE (get HX711.init (Strain.scale st) j)
           | None => HX711.SCALE (get HX711.init (Strain.scale st) j)
           end).
Proof.
  intros Hins. split; [apply scales_positive_setup|]. split.
  - assert (H0 : Strain.scales_positive (fst (Strain.setup amp Strain.power_on))).
    { eapply Forall_impl; [|apply scales_positive_setup].
      intros h Hh. cbv beta in Hh. rewrite Hh. reflexivity. }
    revert H0. generalize (fst (Strain.setup amp Strain.power_on)) as st.
    induction Hins as [|inp ins Hinp Hins IH]; intros st Hst.
    + exact Hst.
    + cbn [Strain.run].
      pose proof (scales_positive_loop inp st Hinp Hst) as H1.
      destruct (Strain.loop inp st) as [st1 out1]. cbn [fst] in H1.
      specialize (IH st1 H1).
      destruct (Strain.run ins st1) as [st2 out2]. exact IH.
  - intros st inp j Hst Hj.
    apply strain_loop_scale; [apply strain_reachable_wf; exact Hst|exact Hj].
Qed.

Lemma scale_positive_under_positive_factors_witness :
  Forall (fun h => HX711.SCALE h = 1%Q)
         (Strain.scale (fst (Strain.setup (all_present 250) Strain.power_on)))
  /\ Strain.scales_positive
       (fst (Strain.run [first_only_in 100 250 (Some "CALIBRATE,3,2.500000")]
               (fst (Strain.setup (all_present 250) Strain.power_on)))).
Proof.
  destruct (scale_positive_under_positive_factors (all_present 250)
              [first_only_in 100 250 (Some "CALIBRATE,3,2.500000")])
    as [H1 [H2 _]].
  - constructor; [|constructor].
    intros command Hs _. injection Hs as <-. reflexivity.
  - exact (conj H1 H2).
Defined.

(** ** The sampling scheduler *)

Lemma ascending_weaken (a b : Z) (ts : list Z) :
  a <= b -> Avr.ascending b ts -> Avr.ascending a ts.
Proof. destruct ts as [|t ts]; simpl; [auto|]. intros Hab [H1 H2]. split; [lia|exact H2]. Qed.

Lemma due_unfold (interval now last : Z) :
  0 <= interval < 2 ^ 32 ->
  Avr.due interval now last = (interval <=? (now - last) mod 2 ^ 32)%Z.
Proof.
  intros H. unfold Avr.due, Avr.wrap_u32. rewrite (Z.mod_small interval) by lia.
  reflexivity.
Qed.

(** One pass of the strain [loop()]: it prints a record exactly when the
    test on the clock succeeds, and then stores the current time. *)
Lemma strain_loop_schedule (inp : Strain.loop_in) (st : Strain.node) :
  let fired := Avr.due Strain.SAMPLE_INTERVAL (Avr.millis (Strain.clock inp))
                       (Strain.lastSampleTime st) in
  filter Strain.is_record (snd (Strain.loop inp st))
  = (if fired
     then [Strain.StrainRecord (Avr.millis (Strain.clock inp))
             (Strain.readings (fst (Strain.sample inp st)))]
     else [])
  /\ Strain.lastSampleTime (fst (Strain.loop inp st))
     = (if fired then Avr.millis (Strain.clock inp) else Strain.lastSampleTime st).
Proof.
  cbv zeta. rewrite strain_loop_split. cbn [fst snd].
  rewrite filter_app.
  assert (Hcmd :
    filter Strain.is_record
      (snd match Strain.serial inp with
           | Some command =>
               Strain.processCommand command (Strain.cmd_conv inp)
                 (fst (Strain.sample inp st))
           | None => (fst (Strain.sample inp st), [])
           end) = []
    /\ Strain.lastSampleTime
         (fst match Strain.serial inp with
              | Some command =>
                  Strain.processCommand command (Strain.cmd_conv inp)
                    (fst (Strain.sample inp st))
              | None => (fst (Strain.sample inp st), [])
              end)
       = Strain.lastSampleTime (fst (Strain.sample inp st))).
  { destruct (Strain.serial inp) as [command|]; [|split; reflexivity].
    destruct (strain_command_keeps_schedule command (Strain.cmd_conv inp)
                (fst (Strain.sample inp st))) as [H1 H2].
    split; assumption. }
  destruct Hcmd as [-> ->]. rewrite app_nil_r.
  destruct (Avr.due _ _ _) eqn:Hdue.
  - rewrite (strain_sample_due inp st Hdue). split; reflexivity.
  - rewrite (strain_sample_idle inp st Hdue). split; reflexivity.
Qed.

Lemma motion_sample_due (inp : Motion.loop_in) (st : Motion.node) :
  Avr.due Motion.SAMPLE_INTERVAL (Avr.millis (Motion.clock inp))
          (Motion.lastSampleTime st) = true ->
  exists v,
    snd (Motion.sample inp st)
    = [Motion.Println (Motion.MotionRecord (Avr.millis (Motion.clock inp)) v)]
    /\ Motion.lastSampleTime (fst (Motion.sample inp st))
       = Avr.millis (Motion.clock inp).
Proof.
  intros H. unfold Motion.sample. rewrite H. unfold Motion.fused, Motion.fuse.
  eexists. split; reflexivity.
Qed.

Lemma motion_sample_idle (inp : Motion.loop_in) (st : Motion.node) :
  Avr.due Motion.SAMPLE_INTERVAL (Avr.millis (Motion.clock inp))
          (Motion.lastSampleTime st) = false ->
  Motion.sample inp st = (st, []).
Proof. intros H. unfold Motion.sample. rewrite H. reflexivity. Qed.

Lemma motion_command_keeps_state command st :
  fst (Motion.processCommand command st) = st
  /\ filter Motion.is_record (snd (Motion.processCommand command st)) = [].
Proof.
  unfold Motion.processCommand.
  destruct (String.eqb command "CALIBRATE"); [split; reflexivity|].
  destruct (String.eqb command "IDENTITY"); split; reflexivity.
Qed.

Lemma motion_loop_split inp st :
  Motion.loop inp st =
  (fst (Motion.sample inp st),
   (snd (Motion.sample inp st) ++
    match Motion.serial inp with
    | Some command => snd (Motion.processCommand command (fst (Motion.sample inp st)))
    | None => []
    end)%list).
Proof.
  unfold Motion.loop.
  destruct (Motion.sample inp st) as [st1 out1]; cbn [fst snd].
  destruct (Motion.serial inp) as [command|].
  - pose proof (motion_command_keeps_state command st1) as [H _].
    destruct (Motion.processCommand command st1) as [st2 out2].
    cbn [fst snd] in *. subst st2. reflexivity.
  - rewrite app_nil_r. reflexivity.
Qed.

(** The same for the motion [loop()]. *)
Lemma motion_loop_schedule (inp : Motion.loop_in) (st : Motion.node) :
  let fired := Avr.due Motion.SAMPLE_INTERVAL (Avr.millis (Motion.clock inp))
                       (Motion.lastSampleTime st) in
  List.length (filter Motion.is_record (snd (Motion.loop inp st)))
  = (if fired then 1 else 0)%nat
  /\ Motion.lastSampleTime (fst (Motion.loop inp st))
     = (if fired then Avr.millis (Motion.clock inp) else Motion.lastSampleTime st).
Proof.
  cbv zeta. rewrite motion_loop_split. cbn [fst snd].
  rewrite filter_app.
  assert (Hcmd :
    filter Motion.is_record
      match Motion.serial inp with
      | Some command =>
          snd (Motion.processCommand command (fst (Motion.sample inp st)))
      | None => []
      end = []).
  { destruct (Motion.serial inp) as [command|]; [|reflexivity].
    apply motion_command_keeps_state. }
  rewrite Hcmd, app_nil_r.
  destruct (Avr.due _ _ _) eqn:Hdue.
  - destruct (motion_sample_due inp st Hdue) as [v [-> ->]]. split; reflexivity.
  - rewrite (motion_sample_idle inp st Hdue). split; reflexivity.
Qed.

Lemma existsb_filter {A} (f : A -> bool) (l : list A) :
  existsb f l = negb (Nat.eqb (List.length (filter f l)) 0).
Proof.
  induction l as [|x l IH]; simpl; [reflexivity|].
  destruct (f x); simpl; [reflexivity|exact IH].
Qed.

Lemma strain_fire_times_spaced (ins : list Strain.loop_in) :
  forall (st : Strain.node) (t0 : Z),
    0 <= t0 -> Strain.lastSampleTime st = Avr.millis t0 ->
    Avr.ascending t0 (map Strain.clock ins) ->
    Avr.spaced Strain.SAMPLE_INTERVAL t0 (Strain.fire_times ins st).
Proof.
  induction ins as [|inp ins IH]; intros st t0 Ht0 Hlast Hasc; [exact I|].
  cbn [map Avr.ascending] in Hasc. destruct Hasc as [Hle Hasc].
  cbn [Strain.fire_times].
  pose proof (strain_loop_schedule inp st) as [Hrec Hnext]. cbv zeta in Hrec, Hnext.
  destruct (Strain.loop inp st) as [st1 out1]. cbn [fst snd] in Hrec, Hnext.
  rewrite existsb_filter, Hrec.
  destruct (Avr.due _ _ _) eqn:Hdue; cbn [List.length Nat.eqb negb].
  - cbn [Avr.spaced]. split.
    + rewrite Hlast in Hdue. apply due_gap in Hdue; [exact Hdue| |exact Hle].
      unfold Strain.SAMPLE_INTERVAL. lia.
    + apply IH; [lia|exact Hnext|exact Hasc].
  - apply IH; [exact Ht0|congruence|].
    apply ascending_weaken with (b := Strain.clock inp); assumption.
Qed.

Lemma motion_fire_times_spaced (ins : list Motion.loop_in) :
  forall (st : Motion.node) (t0 : Z),
    0 <= t0 -> Motion.lastSampleTime st = Avr.millis t0 ->
    Avr.ascending t0 (map Motion.clock ins) ->
    Avr.spaced Motion.SAMPLE_INTERVAL t0 (Motion.fire_times ins st).
Proof.
  induction ins as [|inp ins IH]; intros st t0 Ht0 Hlast Hasc; [exact I|].
  cbn [map Avr.ascending] in Hasc. destruct Hasc as [Hle Hasc].
  cbn [Motion.fire_times].
  pose proof (motion_loop_schedule inp st) as [Hrec Hnext]. cbv zeta in Hrec, Hnext.
  destruct (Motion.loop inp st) as [st1 out1]. cbn [fst snd] in Hrec, Hnext.
  rewrite existsb_filter, Hrec.
  destruct (Avr.due _ _ _) eqn:Hdue; cbn [Nat.eqb negb].
  - cbn [Avr.spaced]. split.
    + rewrite Hlast in Hdue. apply due_gap in Hdue; [exact Hdue| |exact Hle].
      unfold Motion.SAMPLE_INTERVAL. lia.
    + apply IH; [lia|exact Hnext|exact Hasc].
  - apply IH; [exact Ht0|congruence|].
    apply ascending_weaken with (b := Motion.clock inp); assumption.
Qed.

(** C3. On both nodes a pass of [loop()] prints a record exactly when
    [now - lastSampleTime >= SAMPLE_INTERVAL] in [unsigned long] arithmetic
    (100 ms on the strain node, 10 ms on the motion node); it then prints
    exactly one and sets [lastSampleTime] to [now], and otherwise prints
    none and leaves [lastSampleTime] alone.  Hence, along any sequence of
    passes whose clock does not go back, the records of a node are printed
    at instants at least one interval apart (and at least one interval after
    the instant [lastSampleTime] stood for at the start). *)
Theorem scheduler_fires_when_due :
  (forall (inp : Strain.loop_in) (st : Strain.node),
      let now := Avr.millis (Strain.clock inp) in
      let fired := (100 <=? (now - Strain.lastSampleTime st) mod 2 ^ 32)%Z in
      List.length (filter Strain.is_record (snd (Strain.loop inp st)))
      = (if fired then 1 else 0)%nat
      /\ Strain.lastSampleTime (fst (Strain.loop inp st))
         = (if fired then now else Strain.lastSampleTime st))
  /\ (forall (inp : Motion.loop_in) (st : Motion.node),
         let now := Avr.millis (Motion.clock inp) in
         let fired := (10 <=? (now - Motion.lastSampleTime st) mod 2 ^ 32)%Z in
         List.length (filter Motion.is_record (snd (Motion.loop inp st)))
         = (if fired then 1 else 0)%nat
         /\ Motion.lastSampleTime (fst (Motion.loop inp st))
            = (if fired then now else Motion.lastSampleTime st))
  /\ (forall (ins : list Strain.loop_in) (st : Strain.node) (t0 : Z),
         0 <= t0 -> Strain.lastSampleTime st = Avr.millis t0 ->
         Avr.ascending t0 (map Strain.clock ins) ->
         Avr.spaced 100 t0 (Strain.fire_times ins st))
  /\ (forall (ins : list Motion.loop_in) (st : Motion.node) (t0 : Z),
         0 <= t0 -> Motion.lastSampleTime st = Avr.millis t0 ->
         Avr.ascending t0 (map Motion.clock ins) ->
         Avr.spaced 10 t0 (Motion.fire_times ins st)).
Proof.
  split; [|split; [|split]].
  - intros inp st now fired. subst now fired.
    rewrite <- (due_unfold 100) by lia.
    pose proof (strain_loop_schedule inp st) as [H1 H2]. cbv zeta in H1, H2.
    rewrite H1. split; [|exact H2].
    change Strain.SAMPLE_INTERVAL with 100.
    destruct (Avr.due 100 _ _); reflexivity.
  - intros inp st now fired. subst now fired.
    rewrite <- (due_unfold 10) by lia.
    exact (motion_loop_schedule inp st).
  - intros ins st t0. apply strain_fire_times_spaced.
  - intros ins st t0. apply motion_fire_times_spaced.
Qed.

Lemma scheduler_fires_when_due_witness :
  Avr.spaced 100 0
    (Strain.fire_times [steady_in 40 7; steady_in 130 7; steady_in 180 7;
                        steady_in 235 7] Strain.power_on)
  /\ Avr.spaced 10 0
       (Motion.fire_times [level_in 4 None; level_in 12 None; level_in 19 None;
                           level_in 22 None] Motion.power_on).
Proof.
  split.
  - apply (proj1 (proj2 (proj2 scheduler_fires_when_due))).
    + lia.
    + reflexivity.
    + simpl. lia.
  - apply (proj2 (proj2 (proj2 scheduler_fires_when_due))).
    + lia.
    + reflexivity.
    + simpl. lia.
Defined.

(** ** The motion sketch: boot *)

(** C10. Whatever the modules answer and whatever the passes of [loop()]
    receive, the node's activity from power-on is: the ready banner, the two
    sensor lines, CALIBRATING_SENSORS,START, the gyro and accel calibration
    of both modules (once each), CALIBRATING_SENSORS,COMPLETE, and only then
    what the passes of [loop()] print.  No record occurs before the passes
    begin, so every MOTION record comes after the calibration-complete
    frame. *)
Theorem calibration_precedes_records
  (connected : nat -> bool) (ins : list Motion.loop_in) :
  exists sensor_lines,
    Motion.boot connected ins
    = (Motion.Println Motion.Ready :: sensor_lines
       ++ [Motion.Println Motion.CalibratingStart;
           Motion.CalibrateGyro 0 6; Motion.CalibrateAccel 0 6;
           Motion.CalibrateGyro 1 6; Motion.CalibrateAccel 1 6;
           Motion.Println Motion.CalibratingComplete]
       ++ snd (Motion.run ins Motion.power_on))%list
    /\ List.length sensor_lines = 2%nat
    /\ filter Motion.is_record (Motion.setup connected) = []
    /\ Motion.setup connected
       = (Motion.Println Motion.Ready :: sensor_lines ++ Motion.calibrateSensors)%list.
Proof.
  exists (fill 2 (fun i =>
            if connected i
            then Motion.Println (Motion.SensorInitialized (Z.of_nat i + 1))
            else Motion.Println (Motion.SensorNotFound (Z.of_nat i + 1)))).
  split; [|split; [|split]].
  - unfold Motion.boot, Motion.setup, Motion.calibrateSensors.
    cbn [seq flat_map app]. rewrite <- !app_assoc. reflexivity.
  - apply length_fill.
  - unfold Motion.setup, Motion.calibrateSensors, fill. cbn.
    destruct (connected 0%nat), (connected 1%nat); reflexivity.
  - reflexivity.
Qed.

(** ** The motion sketch: fusion *)

Section Fusion.

Local Open Scope R_scope.

Lemma motion_sample_state (inp : Motion.loop_in) (st : Motion.node) :
  Avr.due Motion.SAMPLE_INTERVAL (Avr.millis (Motion.clock inp))
          (Motion.lastSampleTime st) = true ->
  fst (Motion.loop inp st) =
  let e := Motion.fused (Motion.mpu inp) (Motion.pitch st) (Motion.roll st)
                        (Motion.yaw st) in
  let p i := fst (fst (e i)) in
  let r i := snd (fst (e i)) in
  let y i := snd (e i) in
  let o := Motion.next_offset (Motion.angle_offset st) in
  {| Motion.pitch := [p 0%nat; p 1%nat; p 1%nat + Q2R o];
     Motion.roll := [r 0%nat; r 1%nat; r 1%nat];
     Motion.yaw := [y 0%nat; y 1%nat; y 1%nat];
     Motion.lastSampleTime := Avr.millis (Motion.clock inp);
     Motion.angle_offset := o |}.
Proof.
  intros H. rewrite motion_loop_split. cbn [fst].
  unfold Motion.sample. rewrite H. reflexivity.
Qed.

Lemma climbs_spec (n : nat) :
  forall o, Motion.climbs n o = true ->
  forall k, (k < n)%nat ->
    (Nat.iter k Motion.next_offset o < Nat.iter (S k) Motion.next_offset o <= 30)%Q.
Proof.
  induction n as [|n IH]; intros o H k Hk; [lia|].
  cbn [Motion.climbs] in H. cbv zeta in H.
  apply andb_true_iff in H. destruct H as [H H3].
  apply andb_true_iff in H. destruct H as [H1 H2].
  destruct k as [|k].
  - cbn [Nat.iter nat_rect]. split.
    + apply Qnot_le_lt. intros Hle. apply Qle_bool_iff in Hle.
      rewrite Hle in H1. discriminate H1.
    + apply Qle_bool_iff. exact H2.
  - rewrite (Nat.iter_succ_r (S k)), (Nat.iter_succ_r k). apply IH; [exact H3|lia].
Qed.

(** The counter from power-on: it rises for 2999 sampling passes and is
    back at 0.0 after the 3000th. *)
Lemma offset_sawtooth :
  Motion.climbs 2999 0%Q = true /\ Nat.iter 3000 Motion.next_offset 0%Q = 0%Q.
Proof. split; vm_compute; reflexivity. Qed.

(** C7. After every sampling pass the third module's pitch is the second
    module's new pitch plus the offset, its roll and yaw are the second
    module's.  The offset is a [float] counter: each sampling pass adds
    0.01 to it in single precision and sets it back to 0.0 once the sum
    exceeds 30.0.  Counted in sampling passes from power-on it rises for
    2999 passes without exceeding 30, is 0.0 again after the 3000th, and
    so repeats with period 3000: a sawtooth that no sensor value enters. *)
Theorem synthesized_module_follows_second
  (inp : Motion.loop_in) (st : Motion.node) :
  Avr.due Motion.SAMPLE_INTERVAL (Avr.millis (Motion.clock inp))
          (Motion.lastSampleTime st) = true ->
  let st' := fst (Motion.loop inp st) in
  let sum := Float32.round (Motion.angle_offset st + Float32.round (1 # 100))%Q in
  get 0 (Motion.pitch st') 2
  = get 0 (Motion.pitch st') 1 + Q2R (Motion.angle_offset st')
  /\ get 0 (Motion.roll st') 2 = get 0 (Motion.roll st') 1
  /\ get 0 (Motion.yaw st') 2 = get 0 (Motion.yaw st') 1
  /\ ((sum <= 30)%Q -> Motion.angle_offset st' = sum)
  /\ ((30 < sum)%Q -> Motion.angle_offset st' = 0%Q)
  /\ (forall k, (k < 2999)%nat ->
        (Nat.iter k Motion.next_offset 0 < Nat.iter (S k) Motion.next_offset 0
         <= 30)%Q)
  /\ Nat.iter 3000 Motion.next_offset 0%Q = 0%Q
  /\ (forall n, Nat.iter (n + 3000) Motion.next_offset 0%Q
                = Nat.iter n Motion.next_offset 0%Q).
Proof.
  intros Hdue st' sum. subst st' sum. rewrite (motion_sample_state inp st Hdue).
  cbv zeta. cbn [Motion.pitch Motion.roll Motion.yaw Motion.angle_offset get nth].
  destruct offset_sawtooth as [Hclimb Hwrap].
  split; [reflexivity|]. split; [reflexivity|]. split; [reflexivity|].
  split; [|split; [|split; [|split]]].
  - intros H. unfold Motion.next_offset, Motion.increment. cbv zeta.
    apply Qle_bool_iff in H. rewrite H. reflexivity.
  - intros H. unfold Motion.next_offset, Motion.increment. cbv zeta.
    destruct (Qle_bool _ 30) eqn:Hle; [|reflexivity].
    apply Qle_bool_iff in Hle. exfalso. exact (Qlt_not_le _ _ H Hle).
  - exact (climbs_spec 2999 0%Q Hclimb).
  - exact Hwrap.
  - intros n. rewrite Nat.iter_add, Hwrap. reflexivity.
Qed.

Lemma synthesized_module_follows_second_witness :
  let st' := fst (Motion.loop (level_in 10 None) Motion.power_on) in
  get 0 (Motion.pitch st') 2
  = get 0 (Motion.pitch st') 1 + Q2R (Motion.angle_offset st').
Proof.
  exact (proj1 (synthesized_module_follows_second (level_in 10 None)
                  Motion.power_on eq_refl)).
Defined.

(** C2, as stated, fails: the sketch cannot see that a read failed.  On a
    pass where the bus transaction of module 1 did not complete, the yaw of
    that module still moves, from 0 to 0.01, by the rate left in the
    out-parameters. *)
Lemma failed_read_still_fuses :
  MPU6050.bus_ok (Motion.mpu (failed_in 10) 0) = false
  /\ get 0 (Motion.yaw Motion.power_on) 0 = 0
  /\ get 0 (Motion.yaw (fst (Motion.loop (failed_in 10) Motion.power_on))) 0 = 0.01
  /\ get 0 (Motion.yaw (fst (Motion.loop (failed_in 10) Motion.power_on))) 0
     <> get 0 (Motion.yaw Motion.power_on) 0.
Proof.
  rewrite (motion_sample_state (failed_in 10) Motion.power_on eq_refl).
  cbv zeta. cbn [Motion.yaw get nth Motion.power_on].
  unfold Motion.fused, Motion.fuse, Motion.dt, Motion.SAMPLE_INTERVAL.
  cbn [snd get nth Motion.yaw Motion.power_on failed_in Motion.mpu stale MPU6050.gz].
  repeat split; try lra.
Qed.

(** C2, amended.  On every sampling pass and for each real module, the new
    roll and yaw are the complementary-filter result computed from the
    previous ones and the six values [getMotion6] left in its
    out-parameters, whether or not the bus transaction completed; so is the
    new pitch, provided the 16-bit sum [ax * ax + az * az] has not wrapped to
    a negative number (where the sketch's [sqrt] gives NaN).  The outcome of
    the transaction does not enter the result: nothing is held over from the
    previous pass and nothing is reset. *)
Theorem fusion_runs_on_delivered_values
  (inp : Motion.loop_in) (st : Motion.node) (i : nat) :
  (i < 2)%nat ->
  Avr.due Motion.SAMPLE_INTERVAL (Avr.millis (Motion.clock inp))
          (Motion.lastSampleTime st) = true ->
  let st' := fst (Motion.loop inp st) in
  let m := Motion.mpu inp i in
  let result (m : MPU6050.motion6) :=
    Motion.fuse m (get 0 (Motion.pitch st) i) (get 0 (Motion.roll st) i)
      (get 0 (Motion.yaw st) i) in
  let delivered (b : bool) :=
    {| MPU6050.bus_ok := b;
       MPU6050.ax := MPU6050.ax m; MPU6050.ay := MPU6050.ay m;
       MPU6050.az := MPU6050.az m; MPU6050.gx := MPU6050.gx m;
       MPU6050.gy := MPU6050.gy m; MPU6050.gz := MPU6050.gz m |} in
  get 0 (Motion.roll st') i = snd (fst (result m))
  /\ get 0 (Motion.yaw st') i = snd (result m)
  /\ ((0 <= Motion.sum_squares (MPU6050.ax m) (MPU6050.az m))%Z ->
      get 0 (Motion.pitch st') i = fst (fst (result m)))
  /\ forall b,
       snd (fst (result m)) = snd (fst (result (delivered b)))
       /\ snd (result m) = snd (result (delivered b))
       /\ ((0 <= Motion.sum_squares (MPU6050.ax m) (MPU6050.az m))%Z ->
           fst (fst (result m)) = fst (fst (result (delivered b)))).
Proof.
  intros Hi Hdue st' m result delivered. subst st' m result delivered.
  rewrite (motion_sample_state inp st Hdue). cbv zeta.
  cbn [Motion.pitch Motion.roll Motion.yaw].
  destruct i as [|[|i]]; [| |lia]; cbn [get nth]; unfold Motion.fused;
    repeat split.
Qed.

Lemma fusion_runs_on_delivered_values_witness :
  let st' := fst (Motion.loop (failed_in 10) Motion.power_on) in
  get 0 (Motion.roll st') 0 = snd (fst (Motion.fuse stale 0 0 0))
  /\ get 0 (Motion.yaw st') 0 = snd (Motion.fuse stale 0 0 0)
  /\ get 0 (Motion.pitch st') 0 = fst (fst (Motion.fuse stale 0 0 0)).
Proof.
  destruct (fusion_runs_on_delivered_values (failed_in 10) Motion.power_on 0
              ltac:(lia) eq_refl) as [H1 [H2 [H3 _]]].
  refine (conj H1 (conj H2 (H3 _))). discriminate.
Defined.

Lemma fuse_yaw_exact (m : MPU6050.motion6) (p r y : R) :
  snd (Motion.fuse m p r y) = y + IZR (MPU6050.gz m) / 131 * 0.01.
Proof.
  unfold Motion.fuse, Motion.dt, Motion.SAMPLE_INTERVAL. cbn [snd]. lra.
Qed.

(** Where the 16-bit products do not overflow, the loop body computes the
    formulas of the specification. *)
Lemma fuse_matches_spec_in_small_range (m : MPU6050.motion6) (p r y : R) :
  (MPU6050.ax m * MPU6050.ax m + MPU6050.az m * MPU6050.az m < 2 ^ 15)%Z ->
  Motion.fuse m p r y = Motion.spec_fuse m p r y.
Proof.
  intros H.
  assert (Hx : (0 <= MPU6050.ax m * MPU6050.ax m)%Z) by nia.
  assert (Hz : (0 <= MPU6050.az m * MPU6050.az m)%Z) by nia.
  assert (Ha : (- 2 ^ 15 < MPU6050.ax m < 2 ^ 15)%Z) by nia.
  unfold Motion.fuse, Motion.spec_fuse, Motion.accelPitch, Motion.accelRoll,
    Motion.sum_squares, Motion.dt, Motion.SAMPLE_INTERVAL.
  rewrite (wrap_s16_small (MPU6050.ax m * MPU6050.ax m)) by lia.
  rewrite (wrap_s16_small (MPU6050.az m * MPU6050.az m)) by lia.
  rewrite (wrap_s16_small (_ + _)) by lia.
  rewrite (wrap_s16_small (- MPU6050.ax m)) by lia.
  f_equal; [f_equal|]; lra.
Qed.

Lemma atan2_on_axis (y : R) : 0 < y -> Motion.atan2 y 0 = PI / 2.
Proof.
  intros Hy. unfold Motion.atan2.
  destruct (Rlt_dec 0 0) as [H|_]; [lra|].
  destruct (Rlt_dec 0 y) as [_|H]; [reflexivity|lra].
Qed.

Lemma atan2_right_half (y x : R) : 0 < x -> Motion.atan2 y x = atan (y / x).
Proof.
  intros Hx. unfold Motion.atan2.
  destruct (Rlt_dec 0 x) as [_|H]; [reflexivity|lra].
Qed.

(** C4 at the input (ax, ay, az) = (0, 100, 16384), no rotation, previous
    angles 0.  The sum of squares is 268435456 on the integers but 0 in
    the sketch's 16-bit [int] arithmetic, so the sketch takes the
    accelerometer pitch to be 90 degrees and sets the pitch to 1.8, while
    the stated formula gives less than 0.02 * 90 = 1.8. *)
Theorem accel_pitch_overflows :
  (MPU6050.ax tilted * MPU6050.ax tilted
   + MPU6050.az tilted * MPU6050.az tilted = 268435456)%Z
  /\ Motion.sum_squares (MPU6050.ax tilted) (MPU6050.az tilted) = 0%Z
  /\ Motion.accelPitch tilted = 90
  /\ fst (fst (Motion.fuse tilted 0 0 0)) = 1.8
  /\ fst (fst (Motion.spec_fuse tilted 0 0 0)) < 1.8
  /\ fst (fst (Motion.fuse tilted 0 0 0)) <> fst (fst (Motion.spec_fuse tilted 0 0 0)).
Proof.
  assert (Hsq : Motion.sum_squares (MPU6050.ax tilted) (MPU6050.az tilted) = 0%Z)
    by reflexivity.
  assert (Hacc : Motion.accelPitch tilted = 90).
  { unfold Motion.accelPitch. rewrite Hsq, sqrt_0.
    rewrite atan2_on_axis by (cbn; lra).
    pose proof PI_neq0. field. assumption. }
  assert (Hcode : fst (fst (Motion.fuse tilted 0 0 0)) = 1.8).
  { unfold Motion.fuse. cbn [fst]. rewrite Hacc.
    unfold Motion.alpha, Motion.dt, Motion.SAMPLE_INTERVAL. cbn [tilted MPU6050.gy]. lra. }
  assert (Hspec : fst (fst (Motion.spec_fuse tilted 0 0 0)) < 1.8).
  { unfold Motion.spec_fuse. cbn [fst tilted MPU6050.ax MPU6050.ay MPU6050.az MPU6050.gy].
    replace (IZR (0 * 0 + 16384 * 16384)) with (16384 * 16384)
      by (change (0 * 0 + 16384 * 16384)%Z with 268435456%Z; lra).
    rewrite sqrt_square by lra.
    rewrite atan2_right_half by lra.
    pose proof (atan_bound (100 / 16384)) as [_ Hb].
    pose proof PI_RGT_0 as Hpi.
    assert (Hdeg : atan (100 / 16384) * 180 / PI < 90).
    { apply Rmult_lt_reg_r with PI; [exact Hpi|].
      unfold Rdiv at 1. rewrite Rmult_assoc, Rinv_l by lra. lra. }
    unfold Motion.alpha. lra. }
  repeat split; try assumption; try reflexivity. lra.
Qed.

End Fusion.

(** * Further properties of the strain sketch *)

(** ** [setup()] *)

(** X1. [setup()] prints the banner and then one line per channel, in
    channel order: "initialized" for an amplifier that is ready, the error
    line otherwise.  Every channel ends with the gain code of gain 64 and
    scale 1; a ready channel is tared (its offset is the average of ten
    conversions), a channel that is not ready keeps offset 0. *)
Theorem strain_setup_report (amp : nat -> HX711.pins) :
  let r := Strain.setup amp Strain.power_on in
  exists lines,
    snd r = Strain.Ready :: lines
    /\ List.length lines = 8%nat
    /\ forall i, (i < 8)%nat ->
         get Strain.Ready lines i
         = (if HX711.ready (amp i)
            then Strain.ChannelInitialized (Z.of_nat i + 1)
            else Strain.ChannelNotFound (Z.of_nat i + 1))
         /\ HX711.GAIN (get HX711.init (Strain.scale (fst r)) i) = 3
         /\ HX711.SCALE (get HX711.init (Strain.scale (fst r)) i) = 1%Q
         /\ HX711.OFFSET (get HX711.init (Strain.scale (fst r)) i)
            = (if HX711.ready (amp i)
               then HX711.read_average (HX711.conv (amp i)) 10
               else 0).
Proof.
  cbv zeta. unfold Strain.setup. cbn [fst snd Strain.scale].
  eexists. split; [reflexivity|]. split; [apply length_fill|].
  intros i Hi. rewrite !get_fill by exact Hi.
  assert (H0 : get HX711.init (Strain.scale Strain.power_on) i = HX711.init).
  { do 8 (destruct i as [|i]; [reflexivity|]). lia. }
  rewrite H0. destruct (HX711.ready (amp i)); repeat split.
Qed.

(** ** TARE and CALIBRATE *)

Lemma all_answer (answers : nat -> bool) :
  (forall j, (j < 8)%nat -> answers j = true) ->
  forallb answers (seq 0 8) = true.
Proof.
  intros H. apply forallb_forall. intros j Hj. apply in_seq in Hj. apply H. lia.
Qed.

(** X3. A line that begins with TARE makes the sketch read every amplifier.
    If one of them never answers, the call does not return and nothing is
    printed.  If all answer, it prints exactly TARE_COMPLETE and replaces
    every channel's offset by the average of ten fresh conversions; the
    scale factors, the gain codes, the stored readings and the schedule are
    left as they were. *)
Theorem tare_keeps_calibration
  (command : string) (answers : nat -> bool) (c : nat -> nat -> Z)
  (st : Strain.node) :
  WString.startsWith command "TARE" = true ->
  ((exists j, (j < 8)%nat /\ answers j = false) ->
   Strain.call command answers c st = None)
  /\ ((forall j, (j < 8)%nat -> answers j = true) ->
      exists st1,
        Strain.call command answers c st = Some (st1, [Strain.TareComplete])
        /\ Strain.readings st1 = Strain.readings st
        /\ Strain.lastSampleTime st1 = Strain.lastSampleTime st
        /\ List.length (Strain.scale st1) = 8%nat
        /\ forall i, (i < 8)%nat ->
             HX711.OFFSET (get HX711.init (Strain.scale st1) i)
             = HX711.read_average (c i) 10
             /\ HX711.SCALE (get HX711.init (Strain.scale st1) i)
                = HX711.SCALE (get HX711.init (Strain.scale st) i)
             /\ HX711.GAIN (get HX711.init (Strain.scale st1) i)
                = HX711.GAIN (get HX711.init (Strain.scale st) i)).
Proof.
  intros H. unfold Strain.call, Strain.command_returns. rewrite H. split.
  - intros [j [Hj Hans]].
    destruct (forallb answers (seq 0 8)) eqn:Hall; [|reflexivity].
    rewrite forallb_forall in Hall.
    rewrite (Hall j) in Hans by (apply in_seq; lia). discriminate Hans.
  - intros Hall. rewrite (all_answer answers Hall).
    unfold Strain.processCommand. rewrite H.
    eexists. split; [reflexivity|].
    cbn [Strain.scale Strain.readings Strain.lastSampleTime].
    repeat split; try apply length_fill; rewrite get_fill by assumption; reflexivity.
Qed.

Lemma tare_keeps_calibration_witness :
  Strain.call "TARE" (fun j => negb (Nat.eqb j 6)) (fun _ _ => 4711) Strain.power_on
  = None.
Proof.
  refine (proj1 (tare_keeps_calibration "TARE" (fun j => negb (Nat.eqb j 6))
                   (fun _ _ => 4711) Strain.power_on eq_refl) _).
  exists 6%nat. split; [lia|reflexivity].
Defined.

(** X4. A CALIBRATE line the sketch accepts (a comma from position 10 on,
    channel in 1..8) changes one thing in the state: the scale factor of
    that channel becomes the parsed factor.  The channel's offset and gain,
    every other channel, the readings and the schedule stay, and the line
    is acknowledged with the channel and the factor. *)
Theorem calibrate_touches_one_channel
  (command : string) (c : nat -> nat -> Z) (st : Strain.node) :
  Strain.wf st ->
  WString.startsWith command "TARE" = false ->
  WString.startsWith command "CALIBRATE" = true ->
  0 < Strain.commaIndex command ->
  1 <= Strain.channel command <= 8 ->
  let r := Strain.processCommand command c st in
  let k := Z.to_nat (Strain.channel command - 1) in
  snd r = [Strain.CalibrationSet (Strain.channel command) (Strain.factor command)]
  /\ get HX711.init (Strain.scale (fst r)) k
     = HX711.set_scale (Strain.factor command) (get HX711.init (Strain.scale st) k)
  /\ (forall j, j <> k ->
        get HX711.init (Strain.scale (fst r)) j = get HX711.init (Strain.scale st) j)
  /\ Strain.readings (fst r) = Strain.readings st
  /\ Strain.lastSampleTime (fst r) = Strain.lastSampleTime st.
Proof.
  intros [Hs _] Ht Hc Hi Hch. cbv zeta. unfold Strain.processCommand.
  rewrite Ht, Hc.
  apply Z.ltb_lt in Hi. rewrite Hi.
  replace ((1 <=? Strain.channel command) && (Strain.channel command <=? 8))%Z
    with true by (symmetry; apply andb_true_iff; split; apply Z.leb_le; lia).
  cbn [fst snd Strain.scale Strain.readings Strain.lastSampleTime].
  repeat split.
  - apply get_upd_same. rewrite Hs. lia.
  - intros j Hj. apply get_upd_other. congruence.
Qed.

Lemma calibrate_touches_one_channel_witness :
  snd (Strain.processCommand "CALIBRATE,3,2.500000" (fun _ _ => 0) Strain.power_on)
  = [Strain.CalibrationSet 3 (Strain.factor "CALIBRATE,3,2.500000")].
Proof.
  refine (proj1 (calibrate_touches_one_channel "CALIBRATE,3,2.500000"
                   (fun _ _ => 0) Strain.power_on _ _ _ _ _)).
  - split; reflexivity.
  - reflexivity.
  - reflexivity.
  - reflexivity.
  - split; discriminate.
Defined.

Lemma upd_map_seq {A} (h : nat -> A) (f : A -> A) (n : nat) :
  forall s k, (k < n)%nat ->
    upd k f (map h (seq s n))
    = map (fun i => if Nat.eqb i (s + k) then f (h i) else h i) (seq s n).
Proof.
  induction n as [|n IH]; intros s k Hk; [lia|].
  cbn [seq map]. destruct k as [|k]; cbn [upd].
  - rewrite Nat.add_0_r, Nat.eqb_refl. f_equal.
    apply map_ext_in. intros i Hi. apply in_seq in Hi.
    destruct (Nat.eqb_spec i s); [lia|reflexivity].
  - destruct (Nat.eqb_spec s (s + S k)); [lia|]. f_equal.
    rewrite IH by lia. apply map_ext. intros i.
    replace (S s + k)%nat with (s + S k)%nat by lia. reflexivity.
Qed.

(** X5. TARE and CALIBRATE act on different fields and commute: from a
    state with its eight channels, a TARE line followed by any line that
    does not begin with TARE leaves the same state as the two lines in the
    other order (the tare reading the same conversions both times). *)
Theorem tare_and_calibrate_commute
  (tare_line other : string) (c c' : nat -> nat -> Z) (st : Strain.node) :
  Strain.wf st ->
  WString.startsWith tare_line "TARE" = true ->
  WString.startsWith other "TARE" = false ->
  fst (Strain.processCommand other c' (fst (Strain.processCommand tare_line c st)))
  = fst (Strain.processCommand tare_line c (fst (Strain.processCommand other c' st))).
Proof.
  intros [Hs _] Ht Ho. unfold Strain.processCommand. rewrite Ht, Ho.
  destruct (WString.startsWith other "CALIBRATE");
    [|destruct (String.eqb other "IDENTITY"); reflexivity].
  destruct (0 <? Strain.commaIndex other)%Z; [|reflexivity].
  destruct ((1 <=? Strain.channel other) && (Strain.channel other <=? 8))%Z eqn:Hch;
    [|reflexivity].
  apply andb_true_iff in Hch. destruct Hch as [H1 H8].
  apply Z.leb_le in H1, H8.
  cbn [fst Strain.scale Strain.readings Strain.lastSampleTime]. f_equal.
  unfold fill at 1. rewrite upd_map_seq by lia.
  apply map_ext_in. intros i Hi. apply in_seq in Hi. cbn [Nat.add].
  destruct (Nat.eqb_spec i (Z.to_nat (Strain.channel other - 1))) as [->|Hne].
  - rewrite get_upd_same by (rewrite Hs; lia). reflexivity.
  - rewrite get_upd_other by congruence. reflexivity.
Qed.

Lemma tare_and_calibrate_commute_witness :
  fst (Strain.processCommand "CALIBRATE,2,0.5" (fun _ _ => 0)
         (fst (Strain.processCommand "TARE" (fun _ _ => 4711) Strain.power_on)))
  = fst (Strain.processCommand "TARE" (fun _ _ => 4711)
           (fst (Strain.processCommand "CALIBRATE,2,0.5" (fun _ _ => 0)
                   Strain.power_on))).
Proof.
  apply (tare_and_calibrate_commute "TARE" "CALIBRATE,2,0.5").
  - split; reflexivity.
  - reflexivity.
  - reflexivity.
Defined.

(** ** How lines are matched and parsed *)

Lemma string_length_append (p f : string) :
  String.length (p ++ f) = (String.length p + String.length f)%nat.
Proof. induction p as [|a p IH]; simpl; [reflexivity|]. rewrite IH. reflexivity. Qed.

Lemma substring_whole (f : string) : String.substring 0 (String.length f) f = f.
Proof. induction f as [|a f IH]; simpl; [reflexivity|]. rewrite IH. reflexivity. Qed.

Lemma substring_skip (p f : string) (n : nat) :
  String.substring (String.length p) n (p ++ f) = String.substring 0 n f.
Proof. induction p as [|a p IH]; simpl; [reflexivity|exact IH]. Qed.

(** [substring(beginIndex)] returns what follows the first [beginIndex]
    characters. *)
Lemma substring_from_append (p f : string) :
  WString.substring_from (p ++ f) (String.length p) = f.
Proof.
  unfold WString.substring_from, WString.substring.
  rewrite string_length_append.
  rewrite Nat.min_l, Nat.max_r, Nat.min_id by lia.
  destruct (Nat.leb_spec (String.length p + String.length f) (String.length p)) as [H|H].
  - destruct f; [reflexivity|simpl in H; lia].
  - replace (String.length p + String.length f - String.length p)%nat
      with (String.length f) by lia.
    rewrite substring_skip. apply substring_whole.
Qed.

(** X6. The line [CALIBRATE,<n>,<text>] with a one-digit channel n in 1..8
    and any text after the second comma: the sketch finds the comma at
    position 11, reads channel n, hands exactly <text> to [toFloat], stores
    the result in channel n and acknowledges with n and that factor. *)
Theorem calibrate_line_parses
  (n : Z) (text : string) (c : nat -> nat -> Z) (st : Strain.node) :
  1 <= n <= 8 ->
  let line := "CALIBRATE," ++ String (ascii_of_nat (48 + Z.to_nat n)) ("," ++ text) in
  Strain.commaIndex line = 11
  /\ Strain.channel line = n
  /\ Strain.factor line = WString.toFloat text
  /\ Strain.processCommand line c st
     = ({| Strain.scale := upd (Z.to_nat (n - 1))
                               (HX711.set_scale (WString.toFloat text))
                               (Strain.scale st);
           Strain.lastSampleTime := Strain.lastSampleTime st;
           Strain.readings := Strain.readings st |},
        [Strain.CalibrationSet n (WString.toFloat text)]).
Proof.
  intros Hn line.
  assert (Hcomma : Strain.commaIndex line = 11).
  { assert (Hc : n = 1 \/ n = 2 \/ n = 3 \/ n = 4 \/ n = 5 \/ n = 6 \/ n = 7 \/ n = 8)
      by lia.
    subst line. destruct Hc as [->|[->|[->|[->|[->|[->|[->| ->]]]]]]]; reflexivity. }
  assert (Hchan : Strain.channel line = n).
  { unfold Strain.channel. rewrite Hcomma.
    assert (Hc : n = 1 \/ n = 2 \/ n = 3 \/ n = 4 \/ n = 5 \/ n = 6 \/ n = 7 \/ n = 8)
      by lia.
    subst line. destruct Hc as [->|[->|[->|[->|[->|[->|[->| ->]]]]]]]; reflexivity. }
  assert (Hfac : Strain.factor line = WString.toFloat text).
  { unfold Strain.factor. rewrite Hcomma. f_equal.
    subst line.
    change (Z.to_nat (11 + 1)) with
      (String.length ("CALIBRATE," ++ String (ascii_of_nat (48 + Z.to_nat n)) ",")).
    change ("CALIBRATE," ++ String (ascii_of_nat (48 + Z.to_nat n)) ("," ++ text))
      with (("CALIBRATE," ++ String (ascii_of_nat (48 + Z.to_nat n)) ",") ++ text).
    apply substring_from_append. }
  repeat split; try assumption.
  unfold Strain.processCommand. rewrite Hcomma, Hchan, Hfac.
  replace ((1 <=? n) && (n <=? 8))%Z
    with true by (symmetry; apply andb_true_iff; split; apply Z.leb_le; lia).
  reflexivity.
Qed.

Lemma calibrate_line_parses_witness :
  Strain.channel "CALIBRATE,3,2.500000" = 3
  /\ Strain.factor "CALIBRATE,3,2.500000" = WString.toFloat "2.500000".
Proof.
  destruct (calibrate_line_parses 3 "2.500000" (fun _ _ => 0) Strain.power_on
              ltac:(lia)) as [_ [H1 [H2 _]]].
  exact (conj H1 H2).
Defined.

(** ** What a record carries *)

Lemma read_average_single (c : nat -> Z) :
  HX711.in24 (c 0%nat) -> HX711.read_average c 1 = c 0%nat.
Proof.
  unfold HX711.in24. intros H. unfold HX711.read_average. cbn [HX711.sum_reads].
  rewrite Z.add_0_l, wrap_s32_small by lia. apply Z.quot_1_r.
Qed.

Lemma sum_reads_bounds (c : nat -> Z) (n : nat) :
  HX711.conv_ok c -> (n <= 10)%nat ->
  - (Z.of_nat n * 2 ^ 23) <= HX711.sum_reads c n <= Z.of_nat n * (2 ^ 23 - 1).
Proof.
  intros Hc. induction n as [|n IH]; intros Hn; [cbn; lia|].
  cbn [HX711.sum_reads]. specialize (IH ltac:(lia)).
  pose proof (Hc n) as Hk. unfold HX711.in24 in Hk.
  rewrite wrap_s32_small by lia. lia.
Qed.

Lemma read_average_in24 (c : nat -> Z) :
  HX711.conv_ok c -> HX711.in24 (HX711.read_average c 10).
Proof.
  intros Hc. unfold HX711.read_average, HX711.in24.
  pose proof (sum_reads_bounds c 10 Hc ltac:(lia)) as Hs.
  set (s := HX711.sum_reads c 10) in *.
  change (Z.of_nat 10) with 10 in *.
  pose proof (Z.quot_rem' s 10) as Hq.
  pose proof (Z.rem_bound_abs s 10 ltac:(lia)) as Hr.
  lia.
Qed.

Lemma strain_record_values (inp : Strain.loop_in) (st : Strain.node) :
  Avr.due Strain.SAMPLE_INTERVAL (Avr.millis (Strain.clock inp))
          (Strain.lastSampleTime st) = true ->
  exists v rest,
    snd (Strain.loop inp st)
    = Strain.StrainRecord (Avr.millis (Strain.clock inp)) v :: rest
    /\ forall i, (i < 8)%nat ->
         get 0%Q v i
         = if HX711.ready (Strain.hx inp i)
           then HX711.get_value (HX711.conv (Strain.hx inp i)) 1
                  (get HX711.init (Strain.scale st) i)
           else 0%Q.
Proof.
  intros Hdue.
  rewrite strain_loop_split, (strain_sample_due inp st Hdue).
  cbn [fst snd app]. eexists; eexists; split; [reflexivity|].
  intros i Hi. apply get_fill. exact Hi.
Qed.

(** The value a sampling pass records for a ready channel, when conversion
    and offset are both 24-bit: the difference, with no wrap-around. *)
Lemma strain_reading_exact (inp : Strain.loop_in) (st : Strain.node) (i : nat) :
  (i < 8)%nat ->
  HX711.ready (Strain.hx inp i) = true ->
  HX711.in24 (HX711.conv (Strain.hx inp i) 0%nat) ->
  HX711.in24 (HX711.OFFSET (get HX711.init (Strain.scale st) i)) ->
  Avr.due Strain.SAMPLE_INTERVAL (Avr.millis (Strain.clock inp))
          (Strain.lastSampleTime st) = true ->
  exists v rest,
    snd (Strain.loop inp st)
    = Strain.StrainRecord (Avr.millis (Strain.clock inp)) v :: rest
    /\ get 0%Q v i
       = inject_Z (HX711.conv (Strain.hx inp i) 0%nat
                   - HX711.OFFSET (get HX711.init (Strain.scale st) i)).
Proof.
  intros Hi Hr Hc Ho Hdue.
  destruct (strain_record_values inp st Hdue) as [v [rest [Hout Hv]]].
  exists v, rest. split; [exact Hout|].
  rewrite (Hv i Hi), Hr. unfold HX711.get_value.
  rewrite read_average_single by exact Hc.
  unfold HX711.in24 in *. rewrite wrap_s32_small by lia. reflexivity.
Qed.

(** C8. A TARE line returns when every amplifier answers, and prints
    TARE_COMPLETE.  If channel i held still at raw count r while it was
    tared, the next sampling pass that finds the channel ready at raw count
    r' prints a record of eight values whose value for the channel is
    r' - r: the tare captured r as the offset and the reading subtracts it.
    With the raw signal unchanged (r' = r) the value is 0. *)
Theorem tare_then_read_zero
  (command : string) (answers : nat -> bool) (c : nat -> nat -> Z)
  (st : Strain.node) (inp : Strain.loop_in) (i : nat) (r r' : Z) :
  WString.startsWith command "TARE" = true ->
  (forall j, (j < 8)%nat -> answers j = true) ->
  (i < 8)%nat ->
  HX711.in24 r -> HX711.in24 r' ->
  (forall k, (k < 10)%nat -> c i k = r) ->
  HX711.ready (Strain.hx inp i) = true ->
  HX711.conv (Strain.hx inp i) 0%nat = r' ->
  let st1 := fst (Strain.processCommand command c st) in
  Avr.due Strain.SAMPLE_INTERVAL (Avr.millis (Strain.clock inp))
          (Strain.lastSampleTime st1) = true ->
  Strain.call command answers c st = Some (st1, [Strain.TareComplete])
  /\ HX711.OFFSET (get HX711.init (Strain.scale st1) i) = r
  /\ exists v rest,
       snd (Strain.loop inp st1)
       = Strain.StrainRecord (Avr.millis (Strain.clock inp)) v :: rest
       /\ List.length v = 8%nat
       /\ get 0%Q v i = inject_Z (r' - r)
       /\ (r' = r -> get 0%Q v i = 0%Q).
Proof.
  intros Ht Hall Hi Hr Hr' Hc Hready Hconv st1 Hdue.
  assert (Hoff : HX711.OFFSET (get HX711.init (Strain.scale st1) i) = r).
  { subst st1. unfold Strain.processCommand. rewrite Ht.
    cbn [fst Strain.scale]. rewrite get_fill by exact Hi.
    cbn [HX711.tare HX711.OFFSET]. apply read_average_steady; auto; lia. }
  split; [|split; [exact Hoff|]].
  - unfold Strain.call, Strain.command_returns.
    rewrite Ht, (all_answer answers Hall). subst st1.
    unfold Strain.processCommand. rewrite Ht. reflexivity.
  - rewrite strain_loop_split, (strain_sample_due inp st1 Hdue).
    cbn [fst snd app]. eexists; eexists. split; [reflexivity|].
    split; [apply length_fill|].
    assert (Hv : get 0%Q
                   (fill 8 (fun j =>
                      if HX711.ready (Strain.hx inp j)
                      then HX711.get_value (HX711.conv (Strain.hx inp j)) 1
                             (get HX711.init (Strain.scale st1) j)
                      else 0%Q)) i = inject_Z (r' - r)).
    { rewrite get_fill by exact Hi. rewrite Hready. unfold HX711.get_value.
      rewrite read_average_single by (rewrite Hconv; exact Hr').
      rewrite Hconv, Hoff. unfold HX711.in24 in *.
      rewrite wrap_s32_small by lia. reflexivity. }
    split; [exact Hv|]. intros ->. rewrite Hv, Z.sub_diag. reflexivity.
Qed.

Lemma tare_then_read_zero_witness :
  Strain.call "TARE" (fun _ => true) (fun _ _ => 4711) Strain.power_on
  = Some (fst (Strain.processCommand "TARE" (fun _ _ => 4711) Strain.power_on),
          [Strain.TareComplete])
  /\ HX711.OFFSET
       (get HX711.init
          (Strain.scale
             (fst (Strain.processCommand "TARE" (fun _ _ => 4711) Strain.power_on)))
          2) = 4711
  /\ exists v rest,
       snd (Strain.loop (steady_in 100 4711)
              (fst (Strain.processCommand "TARE" (fun _ _ => 4711) Strain.power_on)))
       = Strain.StrainRecord (Avr.millis (Strain.clock (steady_in 100 4711))) v :: rest
       /\ List.length v = 8%nat
       /\ get 0%Q v 2%nat = inject_Z (4711 - 4711)
       /\ (4711 = 4711 -> get 0%Q v 2%nat = 0%Q).
Proof.
  apply (tare_then_read_zero "TARE" (fun _ => true) (fun _ _ => 4711)
           Strain.power_on (steady_in 100 4711) 2 4711 4711).
  - reflexivity.
  - reflexivity.
  - lia.
  - unfold HX711.in24. lia.
  - unfold HX711.in24. lia.
  - reflexivity.
  - reflexivity.
  - reflexivity.
  - reflexivity.
Defined.

(** X8. After a TARE during which channel i held still at raw count r, a
    sampling pass that finds the channel ready at raw count r' records
    exactly r' - r for it (all counts 24-bit). *)
Theorem reading_is_change_since_tare
  (command : string) (c : nat -> nat -> Z) (st : Strain.node)
  (inp : Strain.loop_in) (i : nat) (r r' : Z) :
  WString.startsWith command "TARE" = true ->
  (i < 8)%nat ->
  HX711.in24 r -> HX711.in24 r' ->
  (forall k, (k < 10)%nat -> c i k = r) ->
  HX711.ready (Strain.hx inp i) = true ->
  HX711.conv (Strain.hx inp i) 0%nat = r' ->
  let st1 := fst (Strain.processCommand command c st) in
  Avr.due Strain.SAMPLE_INTERVAL (Avr.millis (Strain.clock inp))
          (Strain.lastSampleTime st1) = true ->
  exists v rest,
    snd (Strain.loop inp st1)
    = Strain.StrainRecord (Avr.millis (Strain.clock inp)) v :: rest
    /\ get 0%Q v i = inject_Z (r' - r).
Proof.
  intros Ht Hi Hr Hr' Hc Hready Hconv st1 Hdue.
  assert (Hoff : HX711.OFFSET (get HX711.init (Strain.scale st1) i) = r).
  { subst st1. unfold Strain.processCommand. rewrite Ht.
    cbn [fst Strain.scale]. rewrite get_fill by exact Hi.
    cbn [HX711.tare HX711.OFFSET]. apply read_average_steady; auto; lia. }
  destruct (strain_reading_exact inp st1 i Hi Hready) as [v [rest [Hout Hv]]].
  - rewrite Hconv. exact Hr'.
  - rewrite Hoff. exact Hr.
  - exact Hdue.
  - exists v, rest. split; [exact Hout|]. rewrite Hv, Hconv, Hoff. reflexivity.
Qed.

Lemma reading_is_change_since_tare_witness :
  exists v rest,
    snd (Strain.loop (steady_in 100 5000)
           (fst (Strain.processCommand "TARE" (fun _ _ => 4711) Strain.power_on)))
    = Strain.StrainRecord 100 v :: rest
    /\ get 0%Q v 5%nat = inject_Z (5000 - 4711).
Proof.
  apply (reading_is_change_since_tare "TARE" (fun _ _ => 4711) Strain.power_on
           (steady_in 100 5000) 5 4711 5000).
  - reflexivity.
  - lia.
  - unfold HX711.in24. lia.
  - unfold HX711.in24. lia.
  - reflexivity.
  - reflexivity.
  - reflexivity.
  - reflexivity.
Defined.

(** X9. A channel whose amplifier is not ready during [setup()] is not
    tared; when it is ready at the first sampling pass, that record carries
    its raw count unadjusted. *)
Theorem absent_at_boot_reads_raw
  (amp : nat -> HX711.pins) (inp : Strain.loop_in) (i : nat) :
  (i < 8)%nat ->
  HX711.ready (amp i) = false ->
  HX711.ready (Strain.hx inp i) = true ->
  HX711.in24 (HX711.conv (Strain.hx inp i) 0%nat) ->
  100 <= Strain.clock inp < 2 ^ 32 ->
  exists v rest,
    snd (Strain.loop inp (fst (Strain.setup amp Strain.power_on)))
    = Strain.StrainRecord (Strain.clock inp) v :: rest
    /\ get 0%Q v i = inject_Z (HX711.conv (Strain.hx inp i) 0%nat).
Proof.
  intros Hi Hamp Hready Hconv Hclock.
  assert (Hoff : HX711.OFFSET
                   (get HX711.init
                      (Strain.scale (fst (Strain.setup amp Strain.power_on))) i) = 0).
  { unfold Strain.setup. cbn [fst Strain.scale].
    rewrite get_fill by exact Hi. rewrite Hamp.
    unfold get. cbn [Strain.power_on Strain.scale]. rewrite nth_repeat.
    reflexivity. }
  assert (Hm : Avr.millis (Strain.clock inp) = Strain.clock inp).
  { unfold Avr.millis, Avr.wrap_u32. apply Z.mod_small. lia. }
  destruct (strain_reading_exact inp (fst (Strain.setup amp Strain.power_on)) i
              Hi Hready Hconv) as [v [rest [Hout Hv]]].
  - rewrite Hoff. unfold HX711.in24. lia.
  - rewrite Hm. cbn [Strain.setup fst Strain.lastSampleTime Strain.power_on].
    unfold Avr.due, Avr.wrap_u32, Strain.SAMPLE_INTERVAL.
    rewrite Z.sub_0_r, (Z.mod_small (Strain.clock inp)) by lia.
    apply Z.leb_le. change (100 mod 2 ^ 32) with 100. lia.
  - exists v, rest. rewrite Hm in Hout. split; [exact Hout|].
    rewrite Hv, Hoff, Z.sub_0_r. reflexivity.
Qed.

Lemma absent_at_boot_reads_raw_witness :
  exists v rest,
    snd (Strain.loop (steady_in 100 250)
           (fst (Strain.setup (fun _ => {| HX711.ready := false;
                                           HX711.conv := fun _ => 0 |})
                   Strain.power_on)))
    = Strain.StrainRecord 100 v :: rest
    /\ get 0%Q v 0%nat = inject_Z 250.
Proof.
  apply (absent_at_boot_reads_raw
           (fun _ => {| HX711.ready := false; HX711.conv := fun _ => 0 |})
           (steady_in 100 250) 0).
  - lia.
  - reflexivity.
  - reflexivity.
  - unfold HX711.in24. cbn. lia.
  - cbn. lia.
Defined.

(** ** No overflow on the way to a record *)

Lemma offsets_ok_setup (amp : nat -> HX711.pins) :
  (forall i, HX711.conv_ok (HX711.conv (amp i))) ->
  Strain.offsets_ok (fst (Strain.setup amp Strain.power_on)).
Proof.
  intros Hamp. unfold Strain.offsets_ok, Strain.setup. cbn [fst Strain.scale].
  apply Forall_fill. intros i.
  destruct (HX711.ready (amp i)); cbn [HX711.tare HX711.OFFSET].
  - apply read_average_in24, Hamp.
  - cbn [HX711.set_gain HX711.OFFSET HX711.begin].
    apply (Forall_get (fun h => HX711.in24 (HX711.OFFSET h)));
      [unfold HX711.in24; cbn; lia|].
    repeat constructor; unfold HX711.in24; cbn; lia.
Qed.

Lemma offsets_ok_command command c st :
  (forall i, HX711.conv_ok (c i)) ->
  Strain.offsets_ok st ->
  Strain.offsets_ok (fst (Strain.processCommand command c st)).
Proof.
  intros Hc Hst. unfold Strain.processCommand.
  destruct (WString.startsWith command "TARE").
  - unfold Strain.offsets_ok. cbn [fst Strain.scale].
    apply Forall_fill. intros i. apply read_average_in24, Hc.
  - destruct (WString.startsWith command "CALIBRATE").
    + destruct (0 <? Strain.commaIndex command)%Z; [|exact Hst].
      destruct ((1 <=? Strain.channel command) && (Strain.channel command <=? 8))%Z;
        [|exact Hst].
      unfold Strain.offsets_ok. cbn [fst Strain.scale].
      apply Forall_upd; [|exact Hst]. intros x Hx. exact Hx.
    + destruct (String.eqb command "IDENTITY"); exact Hst.
Qed.

Lemma strain_command_values_bounded command c st :
  Forall Strain.values_bounded (snd (Strain.processCommand command c st)).
Proof.
  unfold Strain.processCommand.
  repeat match goal with
         | |- context [if ?b then _ else _] => destruct b
         end; cbn [snd]; repeat constructor.
Qed.

Lemma strain_loop_no_overflow inp st :
  Strain.valid_in inp -> Strain.offsets_ok st ->
  Strain.offsets_ok (fst (Strain.loop inp st))
  /\ Forall Strain.values_bounded (snd (Strain.loop inp st)).
Proof.
  intros Hin Hst. rewrite strain_loop_split. cbn [fst snd].
  assert (H1 : Strain.offsets_ok (fst (Strain.sample inp st))
               /\ Forall Strain.values_bounded (snd (Strain.sample inp st))).
  { unfold Strain.sample. destruct (Avr.due _ _ _); [|split; [exact Hst|constructor]].
    cbn [fst snd]. split; [exact Hst|]. constructor; [|constructor].
    cbn [Strain.values_bounded]. apply Forall_fill. intros i.
    destruct (HX711.ready (Strain.hx inp i)).
    - unfold HX711.get_value.
      pose proof (proj1 (Hin i) 0%nat) as Hc.
      assert (Ho : HX711.in24 (HX711.OFFSET (get HX711.init (Strain.scale st) i))).
      { apply (Forall_get (fun h => HX711.in24 (HX711.OFFSET h)));
          [unfold HX711.in24; cbn; lia|exact Hst]. }
      rewrite read_average_single by exact Hc.
      unfold HX711.in24 in *. rewrite wrap_s32_small by lia.
      eexists. split; [reflexivity|]. lia.
    - exists 0. split; [reflexivity|]. lia. }
  destruct H1 as [H1 H2].
  destruct (Strain.serial inp) as [command|].
  - split.
    + apply offsets_ok_command; [|exact H1]. intros i. apply Hin.
    + apply Forall_app. split; [exact H2|]. apply strain_command_values_bounded.
  - split; [exact H1|]. cbn [snd]. rewrite app_nil_r. exact H2.
Qed.

(** X10. With amplifiers that deliver 24-bit conversions, no [long]
    arithmetic on the way to a record wraps around: after [setup()] and any
    passes of [loop()], every stored offset is a 24-bit count and every
    value ever printed in a record is a whole number of counts smaller than
    2^24 in size. *)
Theorem strain_records_never_overflow
  (amp : nat -> HX711.pins) (ins : list Strain.loop_in) :
  (forall i, HX711.conv_ok (HX711.conv (amp i))) ->
  Forall Strain.valid_in ins ->
  let r := Strain.run ins (fst (Strain.setup amp Strain.power_on)) in
  Strain.offsets_ok (fst r) /\ Forall Strain.values_bounded (snd r).
Proof.
  intros Hamp Hins. cbv zeta.
  pose proof (offsets_ok_setup amp Hamp) as H0.
  revert H0. generalize (fst (Strain.setup amp Strain.power_on)) as st.
  induction Hins as [|inp ins Hinp Hins IH]; intros st Hst.
  - split; [exact Hst|constructor].
  - cbn [Strain.run].
    pose proof (strain_loop_no_overflow inp st Hinp Hst) as [H1 H2].
    destruct (Strain.loop inp st) as [st1 out1]. cbn [fst snd] in H1, H2.
    specialize (IH st1 H1).
    destruct (Strain.run ins st1) as [st2 out2]. cbn [fst snd] in *.
    split; [apply IH|]. apply Forall_app. split; [exact H2|apply IH].
Qed.

Lemma strain_records_never_overflow_witness :
  Forall Strain.values_bounded
    (snd (Strain.run [steady_in 100 8388607; steady_in 200 (-8388608)]
            (fst (Strain.setup (all_present (-8388608)) Strain.power_on)))).
Proof.
  refine (proj2 (strain_records_never_overflow (all_present (-8388608))
                   [steady_in 100 8388607; steady_in 200 (-8388608)] _ _)).
  - intros i k. unfold HX711.in24. cbn. lia.
  - repeat constructor; unfold HX711.in24; cbn; lia.
Defined.

(** ** The scheduler, continued *)

Lemma due_after (interval t0 t : Z) :
  0 <= interval < 2 ^ 32 ->
  interval <= t - t0 < 2 ^ 32 ->
  Avr.due interval (Avr.millis t) (Avr.millis t0) = true.
Proof.
  intros Hi Ht. unfold Avr.due, Avr.millis, Avr.wrap_u32.
  rewrite <- Zminus_mod, (Z.mod_small interval), (Z.mod_small (t - t0)) by lia.
  apply Z.leb_le. lia.
Qed.

(** X11. Sampling is not lost when [millis()] rolls over.  If
    [lastSampleTime] holds the [millis()] value of clock t0, a pass whose
    clock is at least one interval and less than 2^32 ms after t0 prints a
    record, wherever the 32-bit counter wrapped in between. *)
Theorem sampling_survives_rollover :
  (forall (inp : Strain.loop_in) (st : Strain.node) (t0 : Z),
      Strain.lastSampleTime st = Avr.millis t0 ->
      100 <= Strain.clock inp - t0 < 2 ^ 32 ->
      exists v rest,
        snd (Strain.loop inp st)
        = Strain.StrainRecord (Avr.millis (Strain.clock inp)) v :: rest)
  /\ (forall (inp : Motion.loop_in) (st : Motion.node) (t0 : Z),
         Motion.lastSampleTime st = Avr.millis t0 ->
         10 <= Motion.clock inp - t0 < 2 ^ 32 ->
         exists v rest,
           snd (Motion.loop inp st)
           = Motion.Println (Motion.MotionRecord (Avr.millis (Motion.clock inp)) v)
             :: rest).
Proof.
  split.
  - intros inp st t0 Hlast Ht.
    assert (Hdue : Avr.due Strain.SAMPLE_INTERVAL (Avr.millis (Strain.clock inp))
                     (Strain.lastSampleTime st) = true).
    { rewrite Hlast. apply due_after; unfold Strain.SAMPLE_INTERVAL; lia. }
    destruct (strain_record_values inp st Hdue) as [v [rest [Hout _]]].
    exists v, rest. exact Hout.
  - intros inp st t0 Hlast Ht.
    assert (Hdue : Avr.due Motion.SAMPLE_INTERVAL (Avr.millis (Motion.clock inp))
                     (Motion.lastSampleTime st) = true).
    { rewrite Hlast. apply due_after; unfold Motion.SAMPLE_INTERVAL; lia. }
    rewrite motion_loop_split. cbn [snd].
    destruct (motion_sample_due inp st Hdue) as [v [-> _]].
    eexists; eexists. reflexivity.
Qed.

Lemma sampling_survives_rollover_witness :
  exists v rest,
    snd (Strain.loop (steady_in (2 ^ 32 + 60) 7)
           {| Strain.scale := Strain.scale Strain.power_on;
              Strain.lastSampleTime := 2 ^ 32 - 50;
              Strain.readings := Strain.readings Strain.power_on |})
    = Strain.StrainRecord 60 v :: rest.
Proof.
  apply (proj1 sampling_survives_rollover (steady_in (2 ^ 32 + 60) 7) _ (2 ^ 32 - 50)).
  - reflexivity.
  - cbn. lia.
Defined.

Lemma last_record_app (out1 out2 : list Strain.frame) (d : Z * list Q) :
  Strain.last_record (out1 ++ out2) d
  = Strain.last_record out2 (Strain.last_record out1 d).
Proof.
  revert d. induction out1 as [|f out1 IH]; intros d; [reflexivity|].
  destruct f; cbn [app Strain.last_record]; apply IH.
Qed.

Lemma last_record_none (out : list Strain.frame) (d : Z * list Q) :
  filter Strain.is_record out = [] -> Strain.last_record out d = d.
Proof.
  induction out as [|f out IH]; intros H; [reflexivity|].
  destruct f; cbn in H |- *; try discriminate; apply IH; exact H.
Qed.

Lemma strain_loop_last_record inp st :
  (Strain.lastSampleTime (fst (Strain.loop inp st)),
   Strain.readings (fst (Strain.loop inp st)))
  = Strain.last_record (snd (Strain.loop inp st))
      (Strain.lastSampleTime st, Strain.readings st).
Proof.
  rewrite strain_loop_split. cbn [fst snd]. rewrite last_record_app.
  set (st1 := fst (Strain.sample inp st)).
  assert (H1 : (Strain.lastSampleTime st1, Strain.readings st1)
               = Strain.last_record (snd (Strain.sample inp st))
                   (Strain.lastSampleTime st, Strain.readings st)).
  { subst st1. unfold Strain.sample. destruct (Avr.due _ _ _); reflexivity. }
  rewrite <- H1.
  destruct (Strain.serial inp) as [command|]; [|reflexivity].
  rewrite last_record_none by apply strain_command_keeps_schedule.
  f_equal; [apply strain_command_keeps_schedule|].
  unfold Strain.processCommand.
  repeat match goal with
         | |- context [if ?b then _ else _] => destruct b
         end; reflexivity.
Qed.

(** X12. State and output agree: after any passes of [loop()],
    [lastSampleTime] and [readings] are the timestamp and the values of the
    last record printed during those passes, and they are what they were
    before if no record was printed. *)
Theorem strain_state_mirrors_last_record
  (ins : list Strain.loop_in) (st : Strain.node) :
  (Strain.lastSampleTime (fst (Strain.run ins st)),
   Strain.readings (fst (Strain.run ins st)))
  = Strain.last_record (snd (Strain.run ins st))
      (Strain.lastSampleTime st, Strain.readings st).
Proof.
  revert st. induction ins as [|inp ins IH]; intros st; [reflexivity|].
  cbn [Strain.run].
  pose proof (strain_loop_last_record inp st) as H1.
  destruct (Strain.loop inp st) as [st1 out1]. cbn [fst snd] in H1.
  specialize (IH st1).
  destruct (Strain.run ins st1) as [st2 out2]. cbn [fst snd] in *.
  rewrite last_record_app, <- H1. exact IH.
Qed.

(** * Further properties of the motion sketch *)

Section MotionRuns.

Local Open Scope R_scope.

Lemma motion_loop_idle (inp : Motion.loop_in) (st : Motion.node) :
  Avr.due Motion.SAMPLE_INTERVAL (Avr.millis (Motion.clock inp))
          (Motion.lastSampleTime st) = false ->
  fst (Motion.loop inp st) = st.
Proof.
  intros H. rewrite motion_loop_split. cbn [fst].
  rewrite (motion_sample_idle inp st H). reflexivity.
Qed.

Lemma nearest_even_nonneg (num den : Z) :
  (0 <= num)%Z -> (0 < den)%Z -> (0 <= Float32.nearest_even num den)%Z.
Proof.
  intros Hn Hd. unfold Float32.nearest_even. cbv zeta.
  pose proof (Z.div_pos num den Hn Hd) as Hfl.
  destruct (2 * (num mod den) ?= den)%Z; [destruct (Z.even _)| |]; lia.
Qed.

Lemma round_pos_nonneg (n d : positive) : (0 <= Float32.round_pos n d)%Q.
Proof.
  unfold Float32.round_pos. cbv zeta. rewrite Qred_correct.
  destruct (0 <=? _)%Z eqn:Hq.
  - apply Z.leb_le in Hq. unfold Qle. cbn [Qnum Qden inject_Z].
    pose proof (nearest_even_nonneg (Zpos n) (Zpos d * 2 ^ (Z.max (Float32.exponent n d) (-126) - 23))
                  ltac:(lia) ltac:(apply Z.mul_pos_pos; [lia|apply Z.pow_pos_nonneg; lia])).
    pose proof (Z.pow_nonneg 2 (Z.max (Float32.exponent n d) (-126) - 23) ltac:(lia)).
    nia.
  - unfold Qle. cbn [Qnum Qden].
    pose proof (nearest_even_nonneg
                  (Zpos n * 2 ^ (- (Z.max (Float32.exponent n d) (-126) - 23))) (Zpos d)
                  ltac:(apply Z.mul_nonneg_nonneg; [lia|apply Z.pow_nonneg; lia])
                  ltac:(lia)).
    lia.
Qed.

(** Rounding keeps a number on its side of zero. *)
Lemma round_nonneg (x : Q) : (0 <= x)%Q -> (0 <= Float32.round x)%Q.
Proof.
  destruct x as [[|n|n] d]; intros H; unfold Float32.round; cbn [Qnum Qden].
  - apply Qle_refl.
  - apply round_pos_nonneg.
  - unfold Qle in H. cbn in H. lia.
Qed.

Lemma next_offset_range (o : Q) :
  (0 <= o <= 30)%Q -> (0 <= Motion.next_offset o <= 30)%Q.
Proof.
  intros [H0 H30]. unfold Motion.next_offset. cbv zeta.
  destruct (Qle_bool _ 30) eqn:Hle; cbn [negb].
  - split; [|apply Qle_bool_iff; exact Hle].
    apply round_nonneg.
    apply Qle_trans with (0 + 0)%Q; [apply Qle_refl|].
    apply Qplus_le_compat; [exact H0|]. vm_compute. discriminate.
  - split; [apply Qle_refl|]. vm_compute. discriminate.
Qed.

Lemma offset_range_real (o : Q) : (0 <= o <= 30)%Q -> 0 <= Q2R o <= 30.
Proof.
  intros [H0 H30]. apply Qle_Rle in H0, H30.
  replace (Q2R 0) with 0 in H0 by (unfold Q2R; cbn; lra).
  replace (Q2R 30) with 30 in H30 by (unfold Q2R; cbn; lra).
  split; assumption.
Qed.

(** What the third module obeys, with the counter as the rational it is. *)
Lemma third_follows_exact_loop inp st :
  (Motion.third_follows st /\ (0 <= Motion.angle_offset st <= 30)%Q) ->
  Motion.third_follows (fst (Motion.loop inp st))
  /\ (0 <= Motion.angle_offset (fst (Motion.loop inp st)) <= 30)%Q.
Proof.
  intros [H HQ].
  destruct (Avr.due Motion.SAMPLE_INTERVAL (Avr.millis (Motion.clock inp))
              (Motion.lastSampleTime st)) eqn:Hdue.
  - rewrite (motion_sample_state inp st Hdue). cbv zeta.
    unfold Motion.third_follows.
    cbn [Motion.pitch Motion.roll Motion.yaw Motion.angle_offset get nth].
    pose proof (next_offset_range _ HQ) as Hn.
    pose proof (offset_range_real _ Hn).
    repeat split; try reflexivity; tauto.
  - rewrite (motion_loop_idle inp st Hdue). split; assumption.
Qed.

(** X13. At every moment after power-on the third module is the second one
    with the offset added to its pitch: pitch[2] = pitch[1] + angle_offset,
    roll[2] = roll[1], yaw[2] = yaw[1], and the offset stays between 0 and
    30 degrees. *)
Theorem third_module_within_thirty_degrees (ins : list Motion.loop_in) :
  let st := fst (Motion.run ins Motion.power_on) in
  get 0 (Motion.pitch st) 2
  = get 0 (Motion.pitch st) 1 + Q2R (Motion.angle_offset st)
  /\ get 0 (Motion.roll st) 2 = get 0 (Motion.roll st) 1
  /\ get 0 (Motion.yaw st) 2 = get 0 (Motion.yaw st) 1
  /\ 0 <= Q2R (Motion.angle_offset st) <= 30.
Proof.
  cbv zeta. change (Motion.third_follows (fst (Motion.run ins Motion.power_on))).
  assert (H0 : Motion.third_follows Motion.power_on
               /\ (0 <= Motion.angle_offset Motion.power_on <= 30)%Q).
  { split.
    - unfold Motion.third_follows. cbn. unfold Q2R. cbn. repeat split; lra.
    - split; vm_compute; discriminate. }
  revert H0. generalize Motion.power_on as st.
  induction ins as [|inp ins IH]; intros st Hst; [apply Hst|].
  cbn [Motion.run].
  pose proof (third_follows_exact_loop inp st Hst) as H1.
  destruct (Motion.loop inp st) as [st1 out1]. cbn [fst] in H1.
  specialize (IH st1 H1).
  destruct (Motion.run ins st1) as [st2 out2]. exact IH.
Qed.

Lemma records_app (out1 out2 : list Motion.event) :
  Motion.records (out1 ++ out2) = (Motion.records out1 ++ Motion.records out2)%list.
Proof. apply filter_app. Qed.








Lemma motion_loop_mute (inp : Motion.loop_in) (st : Motion.node) :
  fst (Motion.loop (Motion.mute inp) st) = fst (Motion.loop inp st)
  /\ snd (Motion.loop (Motion.mute inp) st)
     = Motion.records (snd (Motion.loop inp st)).
Proof.
  rewrite !motion_loop_split. cbn [fst snd Motion.mute Motion.serial].
  assert (Hs : Motion.sample (Motion.mute inp) st = Motion.sample inp st)
    by reflexivity.
  rewrite Hs, app_nil_r, records_app. split; [reflexivity|].
  assert (Hc : Motion.records
                 match Motion.serial inp with
                 | Some command =>
                     snd (Motion.processCommand command (fst (Motion.sample inp st)))
                 | None => []
                 end = []).
  { destruct (Motion.serial inp) as [command|]; [|reflexivity].
    apply motion_command_keeps_state. }
  rewrite Hc, app_nil_r.
  unfold Motion.sample, Motion.records.
  destruct (Avr.due _ _ _); [|reflexivity].
  unfold Motion.fused, Motion.fuse. reflexivity.
Qed.

(** X17. Nothing the host sends reaches the estimator.  Any passes of
    [loop()] leave the same state, and print the same records, as the
    passes with the same clock and sensor values and no serial line at all:
    CALIBRATE and IDENTITY only add their own frames to the output. *)
Theorem serial_lines_leave_estimates_alone
  (ins : list Motion.loop_in) (st : Motion.node) :
  fst (Motion.run (map Motion.mute ins) st) = fst (Motion.run ins st)
  /\ snd (Motion.run (map Motion.mute ins) st)
     = Motion.records (snd (Motion.run ins st)).
Proof.
  revert st. induction ins as [|inp ins IH]; intros st; [split; reflexivity|].
  cbn [map Motion.run].
  pose proof (motion_loop_mute inp st) as [H1 H2].
  destruct (Motion.loop (Motion.mute inp) st) as [m1 o1].
  destruct (Motion.loop inp st) as [st1 out1].
  cbn [fst snd] in H1, H2. subst m1 o1.
  specialize (IH st1).
  destruct (Motion.run (map Motion.mute ins) st1) as [m2 o2].
  destruct (Motion.run ins st1) as [st2 out2].
  cbn [fst snd] in *. destruct IH as [-> ->].
  rewrite records_app. split; reflexivity.
Qed.

Lemma motion_last_record_app (out1 out2 : list Motion.event) (d : Z * list R) :
  Motion.last_record (out1 ++ out2) d
  = Motion.last_record out2 (Motion.last_record out1 d).
Proof.
  revert d. induction out1 as [|e out1 IH]; intros d; [reflexivity|].
  destruct e as [[]| |]; cbn [app Motion.last_record]; apply IH.
Qed.

Lemma motion_last_record_none (out : list Motion.event) (d : Z * list R) :
  Motion.records out = [] -> Motion.last_record out d = d.
Proof.
  unfold Motion.records.
  induction out as [|e out IH]; intros H; [reflexivity|].
  destruct e as [[]| |]; cbn in H |- *; try discriminate; apply IH; exact H.
Qed.

Lemma motion_loop_last_record inp st :
  (Motion.lastSampleTime (fst (Motion.loop inp st)),
   Motion.snapshot (fst (Motion.loop inp st)))
  = Motion.last_record (snd (Motion.loop inp st))
      (Motion.lastSampleTime st, Motion.snapshot st).
Proof.
  rewrite motion_loop_split. cbn [fst snd]. rewrite motion_last_record_app.
  assert (Hc : Motion.records
                 match Motion.serial inp with
                 | Some command =>
                     snd (Motion.processCommand command (fst (Motion.sample inp st)))
                 | None => []
                 end = []).
  { destruct (Motion.serial inp) as [command|]; [|reflexivity].
    apply motion_command_keeps_state. }
  rewrite (motion_last_record_none _ _ Hc).
  unfold Motion.sample. destruct (Avr.due _ _ _); [|reflexivity].
  unfold Motion.fused, Motion.fuse. reflexivity.
Qed.

(** X18. State and output agree on the motion node too: after any passes
    of [loop()], [lastSampleTime] and the nine angles held in [pitch],
    [roll] and [yaw], in record order, are the timestamp and the values of
    the last record printed during those passes, and they are what they
    were before if no record was printed. *)
Theorem motion_state_mirrors_last_record
  (ins : list Motion.loop_in) (st : Motion.node) :
  (Motion.lastSampleTime (fst (Motion.run ins st)),
   Motion.snapshot (fst (Motion.run ins st)))
  = Motion.last_record (snd (Motion.run ins st))
      (Motion.lastSampleTime st, Motion.snapshot st).
Proof.
  revert st. induction ins as [|inp ins IH]; intros st; [reflexivity|].
  cbn [Motion.run].
  pose proof (motion_loop_last_record inp st) as H1.
  destruct (Motion.loop inp st) as [st1 out1]. cbn [fst snd] in H1.
  specialize (IH st1).
  destruct (Motion.run ins st1) as [st2 out2]. cbn [fst snd] in *.
  rewrite motion_last_record_app, <- H1. exact IH.
Qed.

End MotionRuns.
